(** * Scene-graph-generation driver ([lib/model.py])

    A shallow embedding of the orchestration class [SceneGraphGeneration]:
    its constructor, the training loop, the multi-process accumulation of
    predictions, the visualisation helper and the test loop.

    The external collaborators (data loaders, scene parser, optimizer,
    scheduler, checkpointer, communication primitives, evaluation) are not
    part of the file.  What they return is taken as data (the batches a
    loader yields carry what the scene parser answers on them) or as a
    section variable; what the driver asks them to do is recorded, in order,
    in a trace of events.  Wall-clock readings and the formatted arguments of
    log messages are left out of the events; the estimate of the time left,
    computed in every iteration of the training loop from the average
    iteration time of the meters, is kept, with Python's float and
    [datetime.timedelta] arithmetic and the exceptions they raise. *)

From Stdlib Require SpecFloat.
From stdpp Require Import gmap strings pretty sorting.

Local Open Scope Z_scope.

(** ** Python values, exceptions and results *)

Inductive exn :=
  | IndexError
  | KeyError
  | TypeError
  | ZeroDivisionError
  | AttributeError
  | OverflowError
  | ValueError
  | SystemError.

Inductive result (A : Type) :=
  | Return (a : A)
  | Raise (e : exn).
Arguments Return {A} a.
Arguments Raise {A} e.

Inductive level := INFO | WARNING.

(** Values held by the [arguments] dictionary and by checkpoint data: the
    iteration counter is an int, anything else is an opaque object. *)
Inductive pyval :=
  | VInt (z : Z)
  | VObj (id : nat).

Global Instance exn_eq_dec : EqDecision exn.
Proof. solve_decision. Defined.
Global Instance level_eq_dec : EqDecision level.
Proof. solve_decision. Defined.
Global Instance pyval_eq_dec : EqDecision pyval.
Proof. solve_decision. Defined.

(** References to dictionaries living on the heap. *)
Abbreviation loc := positive (only parsing).

(** The part of [cfg] the driver reads. *)
Record config := {
  SOLVER_CHECKPOINT_PERIOD : Z;
  MODEL_RETINANET_ON : bool;
  MODEL_RPN_ONLY : bool
}.

(** ** String formatting *)

Fixpoint zeros (n : nat) : string :=
  match n with
  | O => ""
  | S n' => "0" +:+ zeros n'
  end.

(** Left padding with zeros up to [width] characters. *)
Definition zfill (width : nat) (s : string) : string :=
  zeros (width - String.length s) +:+ s.

(** ["{:07d}".format(i)]: the sign counts in the width. *)
Definition format_07d (i : Z) : string :=
  match i with
  | Zneg p => "-" +:+ zfill 6 (pretty (Npos p))
  | _ => zfill 7 (pretty i)
  end.

Definition checkpoint_name (i : Z) : string := "checkpoint_" +:+ format_07d i.
Arguments checkpoint_name : simpl never.

Definition detection_file (img_id : Z) : string :=
  "visualize" +:+ "/" +:+ ("detection_" +:+ pretty img_id +:+ ".jpg").

Definition predictions_file : string := "results" +:+ "/" +:+ "predictions.pth".

Definition contiguity_warning : string :=
  "Number of images that were gathered from multiple processes is not a contiguous set. Some images might be missing from the evaluation".

(** ** Floats and durations *)

(** Python floats are IEEE 754 binary64 numbers. *)
Abbreviation float := SpecFloat.spec_float (only parsing).

Definition and_then {A B} (r : result A) (k : A → result B) : result B :=
  match r with
  | Return a => k a
  | Raise e => Raise e
  end.

(** The conversion of an int to a float rounds to the nearest float, ties
    to even; past the largest float it raises OverflowError. *)
Definition float_of_int (z : Z) : result float :=
  match SpecFloat.binary_normalize 53 1024 z 0 false with
  | SpecFloat.S754_infinity _ => Raise OverflowError
  | x => Return x
  end.

(** [x * z] for a float [x] and an int [z]: the int is converted first. *)
Definition float_mul_int (x : float) (z : Z) : result float :=
  and_then (float_of_int z) (λ y, Return (SpecFloat.SFmul 53 1024 x y)).

(** [int(x)] truncates towards zero; it raises ValueError on a NaN and
    OverflowError on an infinity. *)
Definition int_of_float (x : float) : result Z :=
  match x with
  | SpecFloat.S754_nan => Raise ValueError
  | SpecFloat.S754_infinity _ => Raise OverflowError
  | SpecFloat.S754_zero _ => Return 0
  | SpecFloat.S754_finite s m e =>
      let magnitude := Z.shiftl (Z.pos m) e in
      Return (if s then - magnitude else magnitude)
  end.

(** [datetime.timedelta(seconds=s)] for an int [s], normalised to days and
    seconds of the day; it raises OverflowError when the days exceed
    999999999 in magnitude. *)
Record timedelta := {
  days : Z;
  seconds : Z
}.

Definition timedelta_of_seconds (s : Z) : result timedelta :=
  let d := s `div` 86400 in
  if decide (Z.abs d ≤ 999999999)
  then Return {| days := d; seconds := s `mod` 86400 |}
  else Raise OverflowError.

(** [eta_seconds = meters.time.global_avg * (max_iter - i)] *)
Definition eta_seconds (global_avg : float) (max_iter i : Z) : result float :=
  float_mul_int global_avg (max_iter - i).

(** [eta_string = str(datetime.timedelta(seconds=int(eta_seconds)))]: the
    text of a timedelta is always defined and goes to the log only, the
    model stops at the timedelta. *)
Definition eta_string (global_avg : float) (max_iter i : Z)
    : result timedelta :=
  and_then (eta_seconds global_avg max_iter i) (λ x,
  and_then (int_of_float x) timedelta_of_seconds).
Arguments eta_string : simpl never.

Definition returns {A} (r : result A) : Prop :=
  match r with
  | Return _ => True
  | Raise _ => False
  end.

Section driver.

(** Opaque payloads: loss tensors, per-image detection results, image
    tensors and the value [evaluate] returns. *)
Context {Tensor BoxList Image Metrics : Type}.

(** External collaborators of one process. *)
Variable is_main_process : bool.
Variable all_gather : gmap Z BoxList → list (gmap Z BoxList).
Variable evaluate : option (list BoxList) → string → bool → Metrics.
Variable tensor_add : Tensor → Tensor → Tensor.

(** ** Observable effects *)

Inductive event :=
  | ELog (lvl : level) (logger : string) (msg : string)
  | EModelMode (training : bool)
  | ESchedulerStep
  | EMetersLoss (loss : option Tensor) (terms : list (string * Tensor))
  | EMetersTime
  | EZeroGrad
  | EBackward (losses : Tensor)
  | EOptimizerStep
  | ECheckpoint (name : string) (kwargs : gmap string pyval)
  | ETimerTic
  | ETimerToc
  | ECudaSync
  | ESynchronize
  | EAllGather (mine : gmap Z BoxList)
  | EMkdir (path : string)
  | EImwrite (path : string) (img : Image) (top : BoxList)
  | ETorchSave (path : string) (obj : option (list BoxList))
  | EEvaluate (preds : option (list BoxList)) (folder : string) (box_only : bool).

Record world := World {
  heap : gmap loc (gmap string pyval);
  paths : gset string;
  trace : list event
}.

(** ** The monad of the driver: state, trace and exceptions *)

Definition M (A : Type) : Type := world → result A * world.

Definition ret {A} (a : A) : M A := λ w, (Return a, w).

Definition bind {A B} (m : M A) (k : A → M B) : M B := λ w,
  match m w with
  | (Return a, w') => k a w'
  | (Raise e, w') => (Raise e, w')
  end.

Definition raise {A} (e : exn) : M A := λ w, (Raise e, w).

(** A computation without effect on the world. *)
Definition lift {A} (r : result A) : M A := λ w, (r, w).

Definition emit (e : event) : M unit := λ w,
  (Return (), World (heap w) (paths w) (trace w ++ [e])).

Definition when (b : bool) (m : M unit) : M unit :=
  if b then m else ret ().

Global Instance M_ret : MRet M := @ret.
Global Instance M_bind : MBind M := λ A B k m, bind m k.

Definition deref (l : loc) : M (gmap string pyval) := λ w,
  match heap w !! l with
  | Some d => (Return d, w)
  | None => (Raise SystemError, w)
  end.

Definition store (l : loc) (d : gmap string pyval) : M unit := λ w,
  (Return (), World (<[l := d]> (heap w)) (paths w) (trace w)).

Definition alloc (d : gmap string pyval) : M loc := λ w,
  let l := fresh (dom (heap w)) in
  (Return l, World (<[l := d]> (heap w)) (paths w) (trace w)).

Definition path_exists (p : string) : M bool := λ w,
  (Return (bool_decide (p ∈ paths w)), w).

Definition touch (p : string) : M unit := λ w,
  (Return (), World (heap w) ({[p]} ∪ paths w) (trace w)).

Definition mkdir (p : string) : M unit := emit (EMkdir p);; touch p.

Definition imwrite (p : string) (img : Image) (top : BoxList) : M unit :=
  emit (EImwrite p img top);; touch p.

Definition torch_save (obj : option (list BoxList)) (p : string) : M unit :=
  emit (ETorchSave p obj);; touch p.

Definition py_mod (a b : Z) : M Z :=
  if decide (b = 0) then raise ZeroDivisionError else ret (a `mod` b).

Definition subscript {A} (l : list A) (i : nat) : M A :=
  match l !! i with
  | Some x => ret x
  | None => raise IndexError
  end.

(** ** Data handed over by the collaborators *)

(** A training batch, with the loss dictionary the scene parser returns
    on it (in the dictionary's own order) and the float that
    [meters.time.global_avg] is once the time of its iteration has been
    recorded. *)
Record train_batch := {
  loss_dict : list (string * Tensor);
  global_avg : float
}.

Record train_loader := {
  train_len : nat;
  train_batches : list train_batch
}.

(** A test batch: [imgs.tensors], [image_ids], and the detections the
    scene parser returns on the images. *)
Record test_batch := {
  tensors : list Image;
  image_ids : list Z;
  output : list BoxList
}.

Record test_loader := {
  test_len : nat;
  dataset_len : nat;
  test_batches : list test_batch
}.

Record SceneGraphGeneration := {
  cfg : config;
  arguments : loc;
  data_loader_train : train_loader;
  data_loader_test : test_loader
}.

(** What the builders called by the constructor return. *)
Record built := {
  built_train : train_loader;
  built_test : test_loader;
  extra_checkpoint_data : gmap string pyval
}.

(** ** [SceneGraphGeneration.__init__] and [build_model] *)

Definition __init__ (c : config) (args : loc) (b : built)
    : M SceneGraphGeneration :=
  d ← deref args;
  copy ← alloc d;
  let self := {| cfg := c; arguments := copy;
                 data_loader_train := built_train b;
                 data_loader_test := built_test b |} in
  d' ← deref (arguments self);
  store (arguments self) (extra_checkpoint_data b ∪ d');;
  ret self.

Definition build_model (c : config) (args : loc) (b : built)
    : M SceneGraphGeneration :=
  __init__ c args b.

(** ** [train] *)

(** [sum(loss for loss in d.values())]: the start value is the int 0,
    which a tensor absorbs; [None] is that int when there is no term. *)
Definition py_sum (vs : list Tensor) : option Tensor :=
  match vs with
  | [] => None
  | v :: vs' => Some (foldl tensor_add v vs')
  end.

(** [sp_checkpointer.save(name, **kwargs)] *)
Definition save (name : string) (kwargs : gmap string pyval) : M unit :=
  if decide (is_Some (kwargs !! "name")) then raise TypeError
  else emit (ECheckpoint name kwargs).

Definition trainer : string := "scene_graph_generation.trainer".

Definition train_iteration (self : SceneGraphGeneration) (max_iter i : Z)
    (data : train_batch) : M unit :=
  args ← deref (arguments self);
  store (arguments self) (<["iteration" := VInt i]> args);;
  emit ESchedulerStep;;
  let loss_dict := loss_dict data in
  let losses := py_sum loss_dict.*2 in
  let loss_dict_reduced := loss_dict in
  let losses_reduced := py_sum loss_dict_reduced.*2 in
  (if decide ("loss"%string ∈ loss_dict_reduced.*1) then raise TypeError
   else emit (EMetersLoss losses_reduced loss_dict_reduced));;
  emit EZeroGrad;;
  match losses with
  | Some l => emit (EBackward l)
  | None => raise AttributeError
  end;;
  emit EOptimizerStep;;
  emit EMetersTime;;
  (* eta_seconds and eta_string are computed before the test on [i] *)
  lift (eta_string (global_avg data) max_iter i);;
  when (bool_decide (i `mod` 20 = 0 ∨ i = max_iter))
    (emit (ELog INFO trainer "model: {tag}  eta: {eta}  iter: {iter}/{max_iter}  {meters}  lr: {lr:.6f}  max mem: {memory:.0f}"));;
  r ← py_mod (i + 1) (SOLVER_CHECKPOINT_PERIOD (cfg self));
  when (bool_decide (r = 0))
    (kw ← deref (arguments self); save (checkpoint_name i) kw);;
  when (bool_decide (i + 1 = max_iter))
    (kw ← deref (arguments self); save "checkpoint_final" kw).

(** [for i, data in enumerate(self.data_loader_train, start_iter)] *)
Fixpoint train_loop (self : SceneGraphGeneration) (max_iter i : Z)
    (batches : list train_batch) : M unit :=
  match batches with
  | [] => ret ()
  | data :: rest =>
      train_iteration self max_iter i data;;
      train_loop self max_iter (i + 1) rest
  end.

Definition train (self : SceneGraphGeneration) : M unit :=
  args ← deref (arguments self);
  start_iter ← match args !! "iteration" with
               | Some v => ret v
               | None => raise KeyError
               end;
  emit (ELog INFO trainer "Start training");;
  let max_iter := Z.of_nat (train_len (data_loader_train self)) in
  emit (EModelMode true);;
  start ← match start_iter with
          | VInt z => ret z
          | VObj _ => raise TypeError
          end;
  train_loop self max_iter start (train_batches (data_loader_train self)).

(** ** [_accumulate_predictions_from_multiple_gpus] *)

(** [for p in all_predictions: predictions.update(p)] *)
Definition merge_dicts (all_predictions : list (gmap Z BoxList))
    : gmap Z BoxList :=
  foldl (λ predictions p, p ∪ predictions) ∅ all_predictions.

Definition sorted_keys (d : gmap Z BoxList) : list Z :=
  merge_sort Z.le (elements (dom d)).

(** [[predictions[i] for i in image_ids]] *)
Fixpoint subscript_all (d : gmap Z BoxList) (ids : list Z)
    : M (list BoxList) :=
  match ids with
  | [] => ret []
  | i :: ids' =>
      match d !! i with
      | Some p => ps ← subscript_all d ids'; ret (p :: ps)
      | None => raise KeyError
      end
  end.

Definition _accumulate_predictions_from_multiple_gpus
    (predictions_per_gpu : gmap Z BoxList) : M (option (list BoxList)) :=
  emit (EAllGather predictions_per_gpu);;
  let all_predictions := all_gather predictions_per_gpu in
  if negb is_main_process then ret None else
  let predictions := merge_dicts all_predictions in
  let image_ids := sorted_keys predictions in
  final ← match last image_ids with
          | Some k => ret k
          | None => raise IndexError
          end;
  when (bool_decide (Z.of_nat (length image_ids) ≠ final + 1))
    (emit (ELog WARNING "maskrcnn_benchmark.inference" contiguity_warning));;
  predictions ← subscript_all predictions image_ids;
  ret (Some predictions).

(** ** [visualize_detection] *)

Fixpoint visualize_each (img_ids : list Z) (imgs : list Image) (i : nat)
    (predictions : list BoxList) : M unit :=
  match predictions with
  | [] => ret ()
  | prediction :: rest =>
      img ← subscript imgs i;
      img_id ← subscript img_ids i;
      imwrite (detection_file img_id) img prediction;;
      visualize_each img_ids imgs (S i) rest
  end.

Definition visualize_detection (img_ids : list Z) (imgs : list Image)
    (predictions : list BoxList) : M unit :=
  let visualize_folder := "visualize"%string in
  found ← path_exists visualize_folder;
  when (negb found) (mkdir visualize_folder);;
  visualize_each img_ids imgs 0 predictions.

(** ** [test] *)

(** [{img_id: result for img_id, result in zip(image_ids, output)}] *)
Definition dict_of_pairs (kvs : list (Z * BoxList)) : gmap Z BoxList :=
  foldl (λ d kv, <[kv.1 := kv.2]> d) ∅ kvs.

Definition inference : string := "scene_graph_generation.inference".

Fixpoint test_loop (timer visualize : bool) (i : Z)
    (batches : list test_batch) (results_dict : gmap Z BoxList)
    : M (gmap Z BoxList) :=
  match batches with
  | [] => ret results_dict
  | data :: rest =>
      when (bool_decide (i `mod` 10 = 0))
        (emit (ELog INFO inference "inference on batch {}/{}..."));;
      when timer (emit ETimerTic);;
      let output := output data in
      when timer (emit ECudaSync;; emit ETimerToc);;
      when visualize
        (visualize_detection (image_ids data) (tensors data) output);;
      test_loop timer visualize (i + 1) rest
        (dict_of_pairs (zip (image_ids data) output) ∪ results_dict)
  end.

(** The part of [test] that follows its loop, from [synchronize()] on. *)
Definition test_finish (self : SceneGraphGeneration)
    (results_dict : gmap Z BoxList) : M (option Metrics) :=
  emit ESynchronize;;
  (* both timing reports divide by [len(self.data_loader_test.dataset)] *)
  (if decide (dataset_len (data_loader_test self) = 0%nat)
   then raise ZeroDivisionError
   else emit (ELog INFO inference "Total run time: {} ({} s / img per device, on {} devices)"));;
  emit (ELog INFO inference "Model inference time: {} ({} s / img per device, on {} devices)");;
  predictions ← _accumulate_predictions_from_multiple_gpus results_dict;
  if negb is_main_process then ret None else
  let output_folder := "results"%string in
  found ← path_exists output_folder;
  when (negb found) (mkdir output_folder);;
  torch_save predictions predictions_file;;
  let box_only :=
    if MODEL_RETINANET_ON (cfg self) then false
    else MODEL_RPN_ONLY (cfg self) in
  emit (EEvaluate predictions output_folder box_only);;
  ret (Some (evaluate predictions output_folder box_only)).

Definition test (self : SceneGraphGeneration) (timer visualize : bool)
    : M (option Metrics) :=
  emit (ELog INFO inference "Start evaluating");;
  emit (EModelMode false);;
  results_dict ←
    test_loop timer visualize 0 (test_batches (data_loader_test self)) ∅;
  test_finish self results_dict.

(** ** Observations on traces *)

Definition checkpoints (tr : list event) : list (string * gmap string pyval) :=
  omap (λ e, match e with ECheckpoint n kw => Some (n, kw) | _ => None end) tr.

Definition backwards (tr : list event) : list Tensor :=
  omap (λ e, match e with EBackward l => Some l | _ => None end) tr.

Definition meter_losses (tr : list event) : list (option Tensor) :=
  omap (λ e, match e with EMetersLoss l _ => Some l | _ => None end) tr.

Definition jpeg_writes (tr : list event) : list (string * Image * BoxList) :=
  omap (λ e, match e with
             | EImwrite p img top => Some (p, img, top)
             | _ => None
             end) tr.

Definition torch_saves (tr : list event)
    : list (string * option (list BoxList)) :=
  omap (λ e, match e with ETorchSave p obj => Some (p, obj) | _ => None end) tr.

(** The effects [test] keeps for the main process. *)
Definition main_only (e : event) : bool :=
  match e with
  | EMkdir p => bool_decide (p = "results"%string)
  | ETorchSave _ _ | EEvaluate _ _ _ => true
  | _ => false
  end.

(** Iterations begun and checkpoints written, in order. *)
Definition progress (tr : list event) : list string :=
  omap (λ e, match e with
             | ESchedulerStep => Some "step"%string
             | ECheckpoint n _ => Some n
             | _ => None
             end) tr.

(** The number of iterations begun: the scheduler steps once in each, at
    its start. *)
Definition steps_taken (tr : list event) : nat :=
  length (omap (λ e, match e with ESchedulerStep => Some () | _ => None end)
            tr).

(** The checkpoints written, in order, each with the number of iterations
    begun when it is written, [begun] of them before [tr]: a checkpoint
    marked [k] is written in the [k]-th iteration. *)
Fixpoint written (begun : nat) (tr : list event)
    : list (nat * (string * gmap string pyval)) :=
  match tr with
  | [] => []
  | ESchedulerStep :: tr' => written (S begun) tr'
  | ECheckpoint n kw :: tr' => (begun, (n, kw)) :: written begun tr'
  | _ :: tr' => written begun tr'
  end.

(** ** Well-formed inputs *)

(** A loss dictionary [train] can digest: it has a term to call
    [backward] on, and no key clashing with the [loss] keyword. *)
Definition loss_dict_ok (data : train_batch) : Prop :=
  loss_dict data ≠ [] ∧ "loss"%string ∉ (loss_dict data).*1.

(** The estimate of the time left can be formed in iteration [i], and in
    each iteration of a loop over [batches] that starts at [i]. *)
Definition eta_ok (max_iter i : Z) (data : train_batch) : Prop :=
  returns (eta_string (global_avg data) max_iter i).

Fixpoint etas_ok (max_iter i : Z) (batches : list train_batch) : Prop :=
  match batches with
  | [] => True
  | data :: rest => eta_ok max_iter i data ∧ etas_ok max_iter (i + 1) rest
  end.

(** A batch with an image and an id for every detection. *)
Definition batch_ok (data : test_batch) : Prop :=
  (length (output data) ≤ length (tensors data))%nat ∧
  (length (output data) ≤ length (image_ids data))%nat.

(** The dictionary [test] has built when its loop is over. *)
Definition results_of (batches : list test_batch) (acc : gmap Z BoxList)
    : gmap Z BoxList :=
  foldl (λ acc data,
           dict_of_pairs (zip (image_ids data) (output data)) ∪ acc)
        acc batches.

(** The events [test] may produce, by process status and [visualize]. *)
Definition allowed (main visualize : bool) (e : event) : Prop :=
  match e with
  | ELog _ _ _ | EModelMode _ | ETimerTic | ETimerToc | ECudaSync
  | ESynchronize | EAllGather _ => True
  | EMkdir p =>
      (visualize = true ∧ p = "visualize"%string) ∨
      (main = true ∧ p = "results"%string)
  | EImwrite p _ _ => visualize = true ∧ ∃ img_id, p = detection_file img_id
  | ETorchSave p _ => main = true ∧ p = predictions_file
  | EEvaluate _ _ _ => main = true
  | _ => False
  end.

Definition allowed_path (main visualize : bool) (p : string) : Prop :=
  (visualize = true ∧
     (p = "visualize"%string ∨ ∃ img_id, p = detection_file img_id)) ∨
  (main = true ∧ (p = "results"%string ∨ p = predictions_file)).

(** [w'] is [w] after some allowed events and some allowed new paths. *)
Definition extends (main visualize : bool) (w w' : world) : Prop :=
  (∃ evs, trace w' = trace w ++ evs ∧ Forall (allowed main visualize) evs) ∧
  (∀ p, p ∈ paths w' → p ∈ paths w ∨ allowed_path main visualize p).

Local Instance Z_divide_dec : RelDecision Z.divide.
Proof.
  intros a b. destruct (decide (a = 0)) as [->|Ha].
  - destruct (decide (b = 0)) as [->|Hb].
    + left. apply Z.divide_0_r.
    + right. intros Hd. by apply Z.divide_0_l in Hd.
  - destruct (decide (b `mod` a = 0)) as [Hm|Hm].
    + left. by apply Z.mod_divide.
    + right. by rewrite <-Z.mod_divide.
Defined.

(** The checkpoints iteration [i] writes, [args] being the dictionary
    [self.arguments] refers to when the iteration starts. *)
Definition saved_at (period max_iter : Z) (args : gmap string pyval) (i : Z)
    : list (string * gmap string pyval) :=
  (if decide ((period | i + 1)) then
     [(checkpoint_name i, <["iteration" := VInt i]> args)]
   else []) ++
  (if decide (i + 1 = max_iter) then
     [("checkpoint_final"%string, <["iteration" := VInt i]> args)]
   else []).

(** The files [visualize_detection] writes for a batch, with the image
    and the detections each is drawn from. *)
Definition detections (img_ids : list Z) (imgs : list Image)
    (predictions : list BoxList) : list (string * Image * BoxList) :=
  (λ x, (detection_file x.1.1, x.1.2, x.2)) <$>
    zip (zip img_ids imgs) predictions.

Definition write_events (files : list (string * Image * BoxList))
    : list event :=
  (λ x, EImwrite x.1.1 x.1.2 x.2) <$> files.

(** A computation whose effects stay within the allowed ones, whatever
    its outcome. *)
Definition steps (main visualize : bool) {A} (m : M A) : Prop :=
  ∀ w, extends main visualize w (m w).2.

(** No image id is held by two of the gathered dictionaries. *)
Definition disjoint_ids (all_predictions : list (gmap Z BoxList)) : Prop :=
  ∀ k, (length (filter (λ p, is_Some (p !! k)) all_predictions) ≤ 1)%nat.

(** The dictionaries handed to [all_gather], in order. *)
Definition gathers (tr : list event) : list (gmap Z BoxList) :=
  omap (λ e, match e with EAllGather mine => Some mine | _ => None end) tr.

(** The messages logged, in order. *)
Definition logs (tr : list event) : list string :=
  omap (λ e, match e with ELog _ _ msg => Some msg | _ => None end) tr.


(** A computation that leaves an observation of the world as it was,
    whatever its outcome. *)
Definition preserves {X A} (f : world → X) (m : M A) : Prop :=
  ∀ w, f (m w).2 = f w.

(** The events of the loop of [test]. *)
Definition loop_event (e : event) : Prop :=
  match e with
  | ELog _ _ _ | ETimerTic | ETimerToc | ECudaSync | EMkdir _
  | EImwrite _ _ _ => True
  | _ => False
  end.

(** The events of inference: all but those of the scheduler, the meters,
    the optimizer and the checkpointer. *)
Definition test_event (e : event) : Prop :=
  match e with
  | ESchedulerStep | EMetersLoss _ _ | EMetersTime | EZeroGrad | EBackward _
  | EOptimizerStep | ECheckpoint _ _ => False
  | _ => True
  end.

(** [w'] is [w] with the same heap, no path lost, and some more events,
    all of them within [ok]. *)
Definition appends (ok : event → Prop) (w w' : world) : Prop :=
  heap w' = heap w ∧
  (∀ p, p ∈ paths w → p ∈ paths w') ∧
  ∃ evs, trace w' = trace w ++ evs ∧ Forall ok evs.

Definition emits_only (ok : event → Prop) {A} (m : M A) : Prop :=
  ∀ w, appends ok w (m w).2.

(** A numeral without leading zero. *)
Definition canonical (s : string) : Prop :=
  s = "0"%string ∨
  ∃ c rest, s = String c rest ∧
            String c "" ≠ "0"%string ∧ String c "" ≠ "-"%string.


(** The line [train] logs to report its progress. *)
Definition progress_line : string :=
  "model: {tag}  eta: {eta}  iter: {iter}/{max_iter}  {meters}  lr: {lr:.6f}  max mem: {memory:.0f}".

(** The progress lines of iteration [i]. *)
Definition logged_at (max_iter i : Z) : list string :=
  if decide (i `mod` 20 = 0 ∨ i = max_iter) then [progress_line] else [].

(** * Facts *)

(** ** Sorted keys of a dictionary *)

Lemma sorted_keys_perm (d : gmap Z BoxList) :
  sorted_keys d ≡ₚ elements (dom d).
Proof. apply merge_sort_Permutation. Qed.

Lemma elem_of_sorted_keys (d : gmap Z BoxList) (k : Z) :
  k ∈ sorted_keys d ↔ is_Some (d !! k).
Proof. by rewrite sorted_keys_perm, elem_of_elements, elem_of_dom. Qed.

Lemma NoDup_sorted_keys (d : gmap Z BoxList) : NoDup (sorted_keys d).
Proof. rewrite sorted_keys_perm. apply NoDup_elements. Qed.

Lemma length_sorted_keys (d : gmap Z BoxList) :
  length (sorted_keys d) = size d.
Proof. by rewrite sorted_keys_perm, <-size_dom. Qed.

Lemma sorted_keys_le (d : gmap Z BoxList) :
  StronglySorted Z.le (sorted_keys d).
Proof. apply (StronglySorted_merge_sort _). Qed.

Lemma sorted_keys_nil (d : gmap Z BoxList) : sorted_keys d = [] ↔ d = ∅.
Proof.
  split.
  - intros Hnil. apply map_eq. intros k. rewrite lookup_empty.
    destruct (d !! k) eqn:Hk; [|done].
    assert (k ∈ sorted_keys d) as Hin by (apply elem_of_sorted_keys; eauto).
    rewrite Hnil in Hin. by apply elem_of_nil in Hin.
  - intros ->. apply Permutation_nil_r.
    by rewrite sorted_keys_perm, dom_empty_L, elements_empty.
Qed.

(** In a duplicate-free ascending list whose elements are at least [a],
    the last element is at least [a + length - 1]. *)
Lemma last_lower_bound (l : list Z) :
  ∀ a k, StronglySorted Z.le l → NoDup l → Forall (Z.le a) l →
         last l = Some k → a + Z.of_nat (length l) - 1 ≤ k.
Proof.
  induction l as [|x l IH]; intros a k Hs Hnd Hge Hlast; [done|].
  apply StronglySorted_inv in Hs as [Hs Hx].
  apply NoDup_cons in Hnd as [Hnx Hnd].
  apply Forall_cons in Hge as [Hax Hge].
  destruct l as [|y l'].
  - simpl in *. simplify_eq. lia.
  - change (last (x :: y :: l')) with (last (y :: l')) in Hlast.
    assert (Forall (Z.le (x + 1)) (y :: l')) as Hge'.
    { apply Forall_forall. intros z Hz.
      rewrite Forall_forall in Hx. specialize (Hx z Hz).
      assert (z ≠ x) by (intros ->; done). lia. }
    specialize (IH (x + 1) k Hs Hnd Hge' Hlast).
    simpl length in *. lia.
Qed.

Lemma last_upper_bound (l : list Z) (k : Z) :
  StronglySorted Z.le l → last l = Some k → Forall (λ x, x ≤ k) l.
Proof.
  induction l as [|x l IH]; intros Hs Hlast; [constructor|].
  apply StronglySorted_inv in Hs as [Hs Hx].
  destruct l as [|y l'].
  - simpl in Hlast. simplify_eq. by repeat constructor.
  - change (last (x :: y :: l')) with (last (y :: l')) in Hlast.
    constructor; [|by apply IH].
    assert (k ∈ y :: l') as Hk.
    { apply last_Some in Hlast as [l'' ->].
      apply elem_of_app. right. constructor. }
    rewrite Forall_forall in Hx. by apply Hx.
Qed.

(** With non-negative keys, the test of the source ([len(image_ids) !=
    image_ids[-1] + 1]) fails exactly on the ranges [0 .. N-1]. *)
Lemma contiguous_iff_last (d : gmap Z BoxList) (k : Z) :
  (∀ i, i ∈ dom d → 0 ≤ i) →
  last (sorted_keys d) = Some k →
  Z.of_nat (length (sorted_keys d)) = k + 1 ↔
  dom d = list_to_set (seqZ 0 (Z.of_nat (size d))).
Proof.
  intros Hnn Hlast.
  assert (Forall (Z.le 0) (sorted_keys d)) as Hge.
  { apply Forall_forall. intros i Hi. apply Hnn.
    by apply elem_of_dom, elem_of_sorted_keys. }
  pose proof (last_lower_bound _ 0 k (sorted_keys_le d)
                (NoDup_sorted_keys d) Hge Hlast) as Hlow.
  pose proof (last_upper_bound _ k (sorted_keys_le d) Hlast) as Hup.
  rewrite length_sorted_keys in *.
  split.
  - intros Hlen. apply set_subseteq_size_eq.
    + intros i Hi. apply elem_of_list_to_set, elem_of_seqZ.
      assert (i ∈ sorted_keys d) as Hi'
        by by apply elem_of_sorted_keys, elem_of_dom.
      rewrite Forall_forall in Hup, Hge.
      specialize (Hup i Hi'). specialize (Hge i Hi'). lia.
    + rewrite size_list_to_set by apply NoDup_seqZ.
      rewrite length_seqZ, size_dom. lia.
  - intros Hdom.
    assert (k ∈ dom d) as Hk.
    { apply elem_of_dom, elem_of_sorted_keys.
      apply last_Some in Hlast as [l' ->].
      apply elem_of_app. right. constructor. }
    rewrite Hdom in Hk. apply elem_of_list_to_set, elem_of_seqZ in Hk. lia.
Qed.

(** ** Merging the gathered dictionaries *)

Lemma merge_dicts_snoc (all_predictions : list (gmap Z BoxList)) p :
  merge_dicts (all_predictions ++ [p]) = p ∪ merge_dicts all_predictions.
Proof. unfold merge_dicts. by rewrite foldl_snoc. Qed.

Lemma lookup_merge_dicts_None (all_predictions : list (gmap Z BoxList)) k :
  merge_dicts all_predictions !! k = None ↔
  Forall (λ p, p !! k = None) all_predictions.
Proof.
  induction all_predictions as [|p l IH] using rev_ind.
  - split; [constructor|]. intros _. apply lookup_empty.
  - rewrite merge_dicts_snoc, lookup_union_None, Forall_app, IH.
    rewrite Forall_singleton. tauto.
Qed.

(** Successive [update] calls are right-biased: the last dictionary that
    knows a key decides its value. *)
Lemma lookup_merge_dicts_latest (before after : list (gmap Z BoxList)) p k v :
  p !! k = Some v →
  Forall (λ q, q !! k = None) after →
  merge_dicts (before ++ p :: after) !! k = Some v.
Proof.
  intros Hp. induction after as [|q after IH] using rev_ind; intros Hafter.
  - rewrite merge_dicts_snoc. by apply lookup_union_Some_l.
  - apply Forall_app in Hafter as [Hafter Hq].
    rewrite Forall_singleton in Hq.
    rewrite app_comm_cons, app_assoc, merge_dicts_snoc.
    rewrite lookup_union_r by done. by apply IH.
Qed.



Lemma merge_dicts_empty (all_predictions : list (gmap Z BoxList)) :
  merge_dicts all_predictions = ∅ ↔ Forall (λ p, p = ∅) all_predictions.
Proof.
  split.
  - intros Hempty. apply Forall_forall. intros p Hp. apply map_eq. intros k.
    rewrite lookup_empty.
    assert (merge_dicts all_predictions !! k = None) as Hk
      by (rewrite Hempty; apply lookup_empty).
    rewrite lookup_merge_dicts_None, Forall_forall in Hk. by apply Hk.
  - intros Hall. apply map_eq. intros k.
    rewrite lookup_empty, lookup_merge_dicts_None.
    eapply Forall_impl; [exact Hall|]. intros p ->. apply lookup_empty.
Qed.

(** ** Running the driver *)

Ltac run :=
  repeat (progress
    (unfold mbind, M_bind, mret, M_ret, bind, ret, raise, lift, emit, when,
       deref, store, alloc, path_exists, touch; simpl)).

Lemma subscript_all_run (d : gmap Z BoxList) (ids : list Z) (w : world) :
  Forall (λ k, is_Some (d !! k)) ids →
  ∃ ps, subscript_all d ids w = (Return ps, w) ∧
        Forall2 (λ k p, d !! k = Some p) ids ps.
Proof.
  induction 1 as [|k ids [p Hp] _ (ps & Hrun & Hps)].
  - exists []. by split; [|constructor].
  - exists (p :: ps). simpl. rewrite Hp. run. rewrite Hrun.
    by split; [|constructor].
Qed.

(** What the main process does once the list of keys has a last element. *)
Lemma accumulate_on_main (predictions_per_gpu : gmap Z BoxList) w final :
  is_main_process = true →
  let merged := merge_dicts (all_gather predictions_per_gpu) in
  last (sorted_keys merged) = Some final →
  ∃ ps,
    _accumulate_predictions_from_multiple_gpus predictions_per_gpu w =
      (Return (Some ps),
       World (heap w) (paths w)
         (trace w ++ EAllGather predictions_per_gpu ::
            if decide (Z.of_nat (length (sorted_keys merged)) = final + 1)
            then []
            else [ELog WARNING "maskrcnn_benchmark.inference"
                    contiguity_warning])) ∧
    Forall2 (λ k p, merged !! k = Some p) (sorted_keys merged) ps.
Proof.
  intros Hmain merged Hlast.
  unfold _accumulate_predictions_from_multiple_gpus. rewrite Hmain.
  fold merged. run. rewrite Hlast. simpl.
  assert (Forall (λ k, is_Some (merged !! k)) (sorted_keys merged)) as Hkeys.
  { apply Forall_forall. intros k. by rewrite elem_of_sorted_keys. }
  destruct (decide (Z.of_nat (length (sorted_keys merged)) = final + 1))
    as [Heq|Hne].
  - rewrite bool_decide_eq_false_2 by (intros Hn; by apply Hn). run.
    edestruct (subscript_all_run merged _
                 (World (heap w) (paths w)
                    (trace w ++ [EAllGather predictions_per_gpu])) Hkeys)
      as (ps & Hrun & Hps).
    exists ps. by rewrite Hrun.
  - rewrite bool_decide_eq_true_2 by done. run.
    edestruct (subscript_all_run merged _
                 (World (heap w) (paths w)
                    ((trace w ++ [EAllGather predictions_per_gpu]) ++
                     [ELog WARNING "maskrcnn_benchmark.inference"
                        contiguity_warning])) Hkeys)
      as (ps & Hrun & Hps).
    exists ps. rewrite Hrun. simpl. by rewrite <-!app_assoc.
Qed.


Lemma accumulate_on_empty (predictions_per_gpu : gmap Z BoxList) w :
  is_main_process = true →
  merge_dicts (all_gather predictions_per_gpu) = ∅ →
  _accumulate_predictions_from_multiple_gpus predictions_per_gpu w =
    (Raise IndexError,
     World (heap w) (paths w) (trace w ++ [EAllGather predictions_per_gpu])).
Proof.
  intros Hmain Hempty. unfold _accumulate_predictions_from_multiple_gpus.
  rewrite Hmain. run.
  apply sorted_keys_nil in Hempty. by rewrite Hempty.
Qed.

(** C1, for image ids that are not negative: on the main process, with a
    non-empty merged dictionary whose keys are all at least 0, the
    accumulation returns the merged predictions in either case, raises
    nothing, and logs the warning if and only if the gathered keys are not
    exactly the range 0 .. N-1, N being the number of distinct keys.  With a
    negative key the equivalence fails: the source compares the number of
    keys with the last key only. *)
Theorem accumulate_warns_iff_not_contiguous
    (predictions_per_gpu : gmap Z BoxList) (w : world) :
  is_main_process = true →
  let merged := merge_dicts (all_gather predictions_per_gpu) in
  merged ≠ ∅ →
  (∀ k, k ∈ dom merged → 0 ≤ k) →
  ∃ ps,
    _accumulate_predictions_from_multiple_gpus predictions_per_gpu w =
      (Return (Some ps),
       World (heap w) (paths w)
         (trace w ++ EAllGather predictions_per_gpu ::
            if decide (dom merged = list_to_set (seqZ 0 (Z.of_nat (size merged))))
            then []
            else [ELog WARNING "maskrcnn_benchmark.inference"
                    contiguity_warning])) ∧
    Forall2 (λ k p, merged !! k = Some p) (sorted_keys merged) ps.
Proof.
  intros Hmain merged Hne Hnn.
  destruct (last (sorted_keys merged)) as [final|] eqn:Hlast.
  - destruct (accumulate_on_main predictions_per_gpu w final Hmain Hlast)
      as (ps & Hrun & Hps).
    exists ps. split; [|done]. rewrite Hrun. fold merged.
    pose proof (contiguous_iff_last merged final Hnn Hlast) as Hiff.
    destruct (decide (Z.of_nat (length (sorted_keys merged)) = final + 1));
      destruct (decide (dom merged =
                        list_to_set (seqZ 0 (Z.of_nat (size merged)))));
      tauto.
  - apply last_None in Hlast. by apply sorted_keys_nil in Hlast.
Qed.

(** C8: on the main process, when every gathered dictionary is empty, the
    merged dictionary is empty and the accumulation raises IndexError (from
    [image_ids[-1]]): no warning is logged and no list is returned. *)
Theorem accumulate_empty_raises_IndexError
    (predictions_per_gpu : gmap Z BoxList) (w : world) :
  is_main_process = true →
  Forall (λ p, p = ∅) (all_gather predictions_per_gpu) →
  merge_dicts (all_gather predictions_per_gpu) = ∅ ∧
  _accumulate_predictions_from_multiple_gpus predictions_per_gpu w =
    (Raise IndexError,
     World (heap w) (paths w) (trace w ++ [EAllGather predictions_per_gpu])).
Proof.
  intros Hmain Hall. apply merge_dicts_empty in Hall.
  split; [done|]. by apply accumulate_on_empty.
Qed.

(** C10: when an image id occurs in several gathered dictionaries, the
    merge keeps one prediction for it, the one of the dictionary that comes
    last among those holding the id; the returned list has it once, at the
    position of the id among the sorted keys. *)
Theorem accumulate_keeps_latest_duplicate
    (predictions_per_gpu : gmap Z BoxList) (w : world)
    (before after : list (gmap Z BoxList)) (p : gmap Z BoxList)
    (k : Z) (v : BoxList) :
  is_main_process = true →
  all_gather predictions_per_gpu = before ++ p :: after →
  p !! k = Some v →
  Forall (λ q, q !! k = None) after →
  let merged := merge_dicts (all_gather predictions_per_gpu) in
  merged !! k = Some v ∧
  ∃ ps idx,
    (_accumulate_predictions_from_multiple_gpus predictions_per_gpu w).1 =
      Return (Some ps) ∧
    length ps = length (sorted_keys merged) ∧
    sorted_keys merged !! idx = Some k ∧
    ps !! idx = Some v ∧
    ∀ j, sorted_keys merged !! j = Some k → j = idx.
Proof.
  intros Hmain Hall Hp Hafter merged.
  assert (merged !! k = Some v) as Hk.
  { unfold merged. rewrite Hall. by apply lookup_merge_dicts_latest. }
  split; [done|].
  assert (k ∈ sorted_keys merged) as Hin
    by (apply elem_of_sorted_keys; eauto).
  destruct (last (sorted_keys merged)) as [final|] eqn:Hlast.
  - destruct (accumulate_on_main predictions_per_gpu w final Hmain Hlast)
      as (ps & Hrun & Hps). fold merged in Hps.
    apply list_elem_of_lookup in Hin as [idx Hidx].
    exists ps, idx. rewrite Hrun. split; [done|].
    split; [symmetry; by eapply Forall2_length|].
    split; [done|]. split.
    + destruct (Forall2_lookup_l _ _ _ _ _ Hps Hidx) as (v' & Hv' & Hkv').
      by simplify_eq.
    + intros j Hj. eapply NoDup_lookup; eauto using NoDup_sorted_keys.
  - apply last_None in Hlast. rewrite Hlast in Hin.
    by apply elem_of_nil in Hin.
Qed.

(** ** The constructor *)

(** C9: constructing the driver (through [__init__] or [build_model])
    leaves the caller's [arguments] dictionary as it was: the object keeps
    a fresh copy, and only the copy receives the extra checkpoint data. *)
Theorem init_keeps_callers_arguments (c : config) (args : loc) (b : built)
    (w : world) (d : gmap string pyval) :
  heap w !! args = Some d →
  ∃ self w',
    __init__ c args b w = (Return self, w') ∧
    build_model c args b w = (Return self, w') ∧
    heap w' !! args = Some d ∧
    arguments self ≠ args ∧
    heap w' !! arguments self = Some (extra_checkpoint_data b ∪ d) ∧
    (∀ l, l ≠ arguments self → heap w' !! l = heap w !! l) ∧
    paths w' = paths w ∧ trace w' = trace w.
Proof.
  intros Hargs. unfold build_model, __init__. run. rewrite Hargs. run.
  rewrite lookup_insert_eq. run.
  set (copy := fresh (dom (heap w))).
  assert (copy ≠ args) as Hfresh.
  { intros Heq. apply (is_fresh (dom (heap w))). fold copy. rewrite Heq.
    apply elem_of_dom. eauto. }
  eexists _, _. split; [reflexivity|]. split; [reflexivity|]. simpl.
  rewrite insert_insert_eq.
  split; [by rewrite lookup_insert_ne|]. split; [done|].
  split; [by rewrite lookup_insert_eq|].
  split; [|done]. intros l Hl. by rewrite lookup_insert_ne.
Qed.

(** ** Checkpoint names *)

Lemma length_append (s1 s2 : string) :
  String.length (s1 +:+ s2) = (String.length s1 + String.length s2)%nat.
Proof. induction s1 as [|c s1 IH]; simpl; [done|]. by rewrite IH. Qed.

Lemma length_zeros (n : nat) : String.length (zeros n) = n.
Proof.
  induction n as [|n IH]; [done|].
  change (zeros (S n)) with ("0" +:+ zeros n). by rewrite length_append, IH.
Qed.

Lemma length_zfill (width : nat) (s : string) :
  (width ≤ String.length (zfill width s))%nat.
Proof. unfold zfill. rewrite length_append, length_zeros. lia. Qed.

Lemma length_format_07d (i : Z) : (7 ≤ String.length (format_07d i))%nat.
Proof.
  destruct i as [|p|p]; unfold format_07d.
  - apply length_zfill.
  - apply length_zfill.
  - pose proof (length_zfill 6 (pretty (N.pos p))).
    rewrite length_append. simpl. lia.
Qed.

(** A periodic checkpoint is never taken for the final one. *)
Lemma checkpoint_name_not_final (i : Z) :
  checkpoint_name i ≠ "checkpoint_final"%string.
Proof.
  unfold checkpoint_name. intros Heq.
  change "checkpoint_final"%string with ("checkpoint_" +:+ "final") in Heq.
  apply (inj (String.append "checkpoint_")) in Heq.
  pose proof (length_format_07d i) as Hlen. rewrite Heq in Hlen.
  simpl in Hlen. lia.
Qed.

(** ** The training loop *)

Lemma saved_at_insert (period max_iter : Z) (args : gmap string pyval) v i :
  saved_at period max_iter (<["iteration" := v]> args) i =
  saved_at period max_iter args i.
Proof. unfold saved_at. by rewrite insert_insert_eq. Qed.

Lemma train_iteration_run (self : SceneGraphGeneration) (max_iter i : Z)
    (data : train_batch) (w : world) (args : gmap string pyval) :
  heap w !! arguments self = Some args →
  args !! "name" = None →
  SOLVER_CHECKPOINT_PERIOD (cfg self) ≠ 0 →
  loss_dict_ok data →
  eta_ok max_iter i data →
  ∃ l w',
    train_iteration self max_iter i data w = (Return (), w') ∧
    py_sum (loss_dict data).*2 = Some l ∧
    heap w' = <[arguments self := <["iteration" := VInt i]> args]> (heap w) ∧
    paths w' = paths w ∧
    checkpoints (trace w') =
      checkpoints (trace w) ++
      saved_at (SOLVER_CHECKPOINT_PERIOD (cfg self)) max_iter args i ∧
    backwards (trace w') = backwards (trace w) ++ [l] ∧
    meter_losses (trace w') = meter_losses (trace w) ++ [Some l].
Proof.
  intros Hargs Hname Hperiod [Hne Hloss] Heta. unfold eta_ok in Heta.
  destruct (eta_string (global_avg data) max_iter i) as [eta|] eqn:Heta';
    [clear Heta|done].
  destruct (py_sum (loss_dict data).*2) as [l|] eqn:Hsum.
  2:{ destruct (loss_dict data); [done|discriminate]. }
  exists l.
  unfold train_iteration, py_mod, save. run. rewrite Hargs. run.
  rewrite decide_False by done. run. rewrite Hsum. run. rewrite Heta'. run.
  rewrite (decide_False _ _ Hperiod). run.
  assert (¬ is_Some (<["iteration":=VInt i]> args !! "name")) as Hn.
  { rewrite lookup_insert_ne by done. rewrite Hname. by intros [? ?]. }
  destruct (bool_decide (i `mod` 20 = 0 ∨ i = max_iter)); simpl;
    (case_bool_decide as Hmod; simpl;
     rewrite ?lookup_insert_eq; simpl; rewrite ?(decide_False _ _ Hn); simpl);
    (case_bool_decide as Hfin; simpl;
     rewrite ?lookup_insert_eq; simpl; rewrite ?(decide_False _ _ Hn); simpl);
    (eexists; split; [reflexivity|]; simpl; repeat (split; [done|]);
     unfold checkpoints, backwards, meter_losses, saved_at;
     rewrite !omap_app; simpl; rewrite ?app_nil_r;
     apply Z.mod_divide in Hmod || rewrite Z.mod_divide in Hmod by done;
     rewrite ?(decide_True _ _ Hmod), ?(decide_False _ _ Hmod),
       ?(decide_True _ _ Hfin), ?(decide_False _ _ Hfin); simpl;
     rewrite ?app_nil_r, <-?app_assoc; done).
Qed.

Lemma train_loop_run (self : SceneGraphGeneration) (max_iter : Z)
    (batches : list train_batch) :
  ∀ (i : Z) (w : world) (args : gmap string pyval),
    heap w !! arguments self = Some args →
    args !! "name" = None →
    SOLVER_CHECKPOINT_PERIOD (cfg self) ≠ 0 →
    Forall loss_dict_ok batches →
    etas_ok max_iter i batches →
    ∃ ls w',
      train_loop self max_iter i batches w = (Return (), w') ∧
      Forall2 (λ data l, py_sum (loss_dict data).*2 = Some l) batches ls ∧
      paths w' = paths w ∧
      (∀ l, l ≠ arguments self → heap w' !! l = heap w !! l) ∧
      checkpoints (trace w') =
        checkpoints (trace w) ++
        flat_map (saved_at (SOLVER_CHECKPOINT_PERIOD (cfg self)) max_iter args)
          (seqZ i (Z.of_nat (length batches))) ∧
      backwards (trace w') = backwards (trace w) ++ ls ∧
      meter_losses (trace w') = meter_losses (trace w) ++ (Some <$> ls).
Proof.
  induction batches as [|data rest IH];
    intros i w args Hargs Hname Hperiod Hok Hetas.
  - exists [], w. simpl. rewrite !app_nil_r. by repeat split; try constructor.
  - apply Forall_cons in Hok as [Hdata Hrest]. destruct Hetas as [Heta Hetas].
    destruct (train_iteration_run self max_iter i data w args
                Hargs Hname Hperiod Hdata Heta)
      as (l & w1 & Hrun1 & Hsum & Hheap1 & Hpaths1 & Hck1 & Hbw1 & Hml1).
    assert (heap w1 !! arguments self = Some (<["iteration" := VInt i]> args))
      as Hargs1 by (rewrite Hheap1; apply lookup_insert_eq).
    assert (<["iteration" := VInt i]> args !! "name" = None) as Hname1
      by by rewrite lookup_insert_ne.
    destruct (IH (i + 1) w1 _ Hargs1 Hname1 Hperiod Hrest Hetas)
      as (ls & w2 & Hrun2 & Hsums & Hpaths2 & Hheap2 & Hck2 & Hbw2 & Hml2).
    exists (l :: ls), w2.
    split. { simpl. run. by rewrite Hrun1. }
    split; [by constructor|].
    split; [congruence|].
    split. { intros l' Hl'. rewrite Hheap2, Hheap1 by done.
             by rewrite lookup_insert_ne. }
    rewrite Hck2, Hbw2, Hml2, Hck1, Hbw1, Hml1, <-!app_assoc.
    split; [|done].
    rewrite (seqZ_cons i) by (simpl length; lia).
    replace (Z.succ i) with (i + 1) by lia.
    replace (Z.pred (Z.of_nat (length (data :: rest))))
      with (Z.of_nat (length rest)) by (simpl length; lia).
    simpl flat_map. do 2 f_equal.
    apply flat_map_ext. intros j. apply saved_at_insert.
Qed.

Lemma train_run (self : SceneGraphGeneration) (w : world)
    (args : gmap string pyval) (start_iter : Z) :
  heap w !! arguments self = Some args →
  args !! "iteration" = Some (VInt start_iter) →
  args !! "name" = None →
  SOLVER_CHECKPOINT_PERIOD (cfg self) ≠ 0 →
  Forall loss_dict_ok (train_batches (data_loader_train self)) →
  etas_ok (Z.of_nat (train_len (data_loader_train self))) start_iter
    (train_batches (data_loader_train self)) →
  let batches := train_batches (data_loader_train self) in
  let max_iter := Z.of_nat (train_len (data_loader_train self)) in
  ∃ ls w',
    train self w = (Return (), w') ∧
    Forall2 (λ data l, py_sum (loss_dict data).*2 = Some l) batches ls ∧
    paths w' = paths w ∧
    (∀ l, l ≠ arguments self → heap w' !! l = heap w !! l) ∧
    checkpoints (trace w') =
      checkpoints (trace w) ++
      flat_map (saved_at (SOLVER_CHECKPOINT_PERIOD (cfg self)) max_iter args)
        (seqZ start_iter (Z.of_nat (length batches))) ∧
    backwards (trace w') = backwards (trace w) ++ ls ∧
    meter_losses (trace w') = meter_losses (trace w) ++ (Some <$> ls).
Proof.
  intros Hargs Hiter Hname Hperiod Hok Hetas batches max_iter.
  set (w0 := World (heap w) (paths w)
               ((trace w ++ [ELog INFO trainer "Start training"]) ++
                [EModelMode true])).
  destruct (train_loop_run self max_iter batches start_iter w0 args
              Hargs Hname Hperiod Hok Hetas)
    as (ls & w' & Hrun & Hsums & Hpaths & Hheap & Hck & Hbw & Hml).
  exists ls, w'. split.
  { unfold train. run. rewrite Hargs. run. rewrite Hiter. by run. }
  repeat (split; [done|]).
  rewrite Hck, Hbw, Hml. unfold w0, checkpoints, backwards, meter_losses.
  simpl. rewrite !omap_app. simpl. by rewrite !app_nil_r.
Qed.

(** The periodic checkpoints among those of a run. *)
Lemma periodic_saved (period max_iter : Z) (args : gmap string pyval)
    (iterations : list Z) :
  filter (λ c, c.1 ≠ "checkpoint_final"%string)
    (flat_map (saved_at period max_iter args) iterations) =
  (λ i, (checkpoint_name i, <["iteration" := VInt i]> args)) <$>
    filter (λ i, (period | i + 1)) iterations.
Proof.
  induction iterations as [|i rest IH]; [done|].
  simpl flat_map. rewrite filter_app, IH, filter_cons. unfold saved_at.
  pose proof (checkpoint_name_not_final i) as Hname.
  destruct (decide ((period | i + 1))), (decide (i + 1 = max_iter)).
  - rewrite filter_app, !filter_cons, !filter_nil. cbn [fst app].
    rewrite decide_True by done.
    by rewrite decide_False by (intros Hn; by apply Hn).
  - cbn [app]. rewrite !filter_cons, !filter_nil. cbn [fst app].
    by rewrite decide_True by done.
  - cbn [app]. rewrite !filter_cons, !filter_nil. cbn [fst app].
    by rewrite decide_False by (intros Hn; by apply Hn).
  - done.
Qed.

(** C4: in every iteration of a run of [train] (one that completes: loss
    dictionaries [train] can digest, a checkpoint period other than 0, an
    estimate of the time left in range), the loss handed to [backward] is
    the sum of the values of the loss dictionary the scene parser returned
    for that iteration, the first value plus the second, plus the third,
    and so on to the last; and the value recorded by the meters under
    [loss] is that same sum. *)
Theorem train_backpropagates_sum_of_losses (self : SceneGraphGeneration)
    (w : world) (args : gmap string pyval) (start_iter : Z) :
  heap w !! arguments self = Some args →
  args !! "iteration" = Some (VInt start_iter) →
  args !! "name" = None →
  SOLVER_CHECKPOINT_PERIOD (cfg self) ≠ 0 →
  Forall loss_dict_ok (train_batches (data_loader_train self)) →
  etas_ok (Z.of_nat (train_len (data_loader_train self))) start_iter
    (train_batches (data_loader_train self)) →
  ∃ ls w',
    train self w = (Return (), w') ∧
    Forall2 (λ data l, ∃ v vs, (loss_dict data).*2 = v :: vs ∧
                               l = foldl tensor_add v vs)
      (train_batches (data_loader_train self)) ls ∧
    backwards (trace w') = backwards (trace w) ++ ls ∧
    meter_losses (trace w') = meter_losses (trace w) ++ (Some <$> ls).
Proof.
  intros Hargs Hiter Hname Hperiod Hok Hetas.
  destruct (train_run self w args start_iter Hargs Hiter Hname Hperiod Hok
              Hetas)
    as (ls & w' & Hrun & Hsums & _ & _ & _ & Hbw & Hml).
  exists ls, w'. repeat (split; [done|]). split; [|done].
  eapply Forall2_impl; [exact Hsums|]. intros data l Hsum. simpl in Hsum.
  destruct ((loss_dict data).*2) as [|v vs]; [done|].
  exists v, vs. split; [done|]. simpl in Hsum. congruence.
Qed.

(** C5: in a run of [train] that starts at [start_iter], is fed [n]
    batches and completes (the estimate of the time left, computed in each
    iteration before the checkpoint, stays in range), the periodic
    checkpoints written are those named [checkpoint_{i:07d}] for the
    iterations [i] of the run with [i + 1] a multiple of the checkpoint
    period, one each, in order, and no other. *)
Theorem train_checkpoint_cadence (self : SceneGraphGeneration)
    (w : world) (args : gmap string pyval) (start_iter : Z) :
  heap w !! arguments self = Some args →
  args !! "iteration" = Some (VInt start_iter) →
  args !! "name" = None →
  SOLVER_CHECKPOINT_PERIOD (cfg self) ≠ 0 →
  Forall loss_dict_ok (train_batches (data_loader_train self)) →
  etas_ok (Z.of_nat (train_len (data_loader_train self))) start_iter
    (train_batches (data_loader_train self)) →
  ∃ saved w',
    train self w = (Return (), w') ∧
    checkpoints (trace w') = checkpoints (trace w) ++ saved ∧
    filter (λ c, c.1 ≠ "checkpoint_final"%string) saved =
      (λ i, (checkpoint_name i, <["iteration" := VInt i]> args)) <$>
        filter (λ i, (SOLVER_CHECKPOINT_PERIOD (cfg self) | i + 1))
          (seqZ start_iter
             (Z.of_nat (length (train_batches (data_loader_train self))))).
Proof.
  intros Hargs Hiter Hname Hperiod Hok Hetas.
  destruct (train_run self w args start_iter Hargs Hiter Hname Hperiod Hok
              Hetas)
    as (ls & w' & Hrun & _ & _ & _ & Hck & _ & _).
  eexists _, w'. split; [done|]. split; [exact Hck|].
  apply periodic_saved.
Qed.

(** ** Effects within bounds *)

Lemma extends_refl main visualize w : extends main visualize w w.
Proof.
  split; [|by left]. exists []. by rewrite app_nil_r.
Qed.

Lemma extends_trans main visualize w1 w2 w3 :
  extends main visualize w1 w2 → extends main visualize w2 w3 →
  extends main visualize w1 w3.
Proof.
  intros [(evs1 & Ht1 & He1) Hp1] [(evs2 & Ht2 & He2) Hp2]. split.
  - exists (evs1 ++ evs2). rewrite Ht2, Ht1, app_assoc.
    split; [done|]. by apply Forall_app.
  - intros p Hp. destruct (Hp2 p Hp) as [Hp'|?]; [|by right]. by apply Hp1.
Qed.




Lemma steps_ret main visualize {A} (a : A) : steps main visualize (ret a).
Proof. intros w. apply extends_refl. Qed.

Lemma steps_raise main visualize {A} (e : exn) :
  steps main visualize (raise (A:=A) e).
Proof. intros w. apply extends_refl. Qed.

Lemma steps_bind main visualize {A B} (m : M A) (k : A → M B) :
  steps main visualize m → (∀ a, steps main visualize (k a)) →
  steps main visualize (m ≫= k).
Proof.
  intros Hm Hk w. specialize (Hm w). unfold mbind, M_bind, bind.
  destruct (m w) as [[a|e] w1]; simpl in *; [|done].
  eapply extends_trans; [exact Hm|apply Hk].
Qed.

Lemma steps_emit main visualize (e : event) :
  allowed main visualize e → steps main visualize (emit e).
Proof.
  intros He w. split; [|by left]. exists [e]. split; [done|].
  by apply Forall_singleton.
Qed.

Lemma steps_touch main visualize (p : string) :
  allowed_path main visualize p → steps main visualize (touch p).
Proof.
  intros Hp w. split.
  - exists []. by rewrite app_nil_r.
  - simpl. intros q [->%elem_of_singleton|?]%elem_of_union; [by right|by left].
Qed.

Lemma steps_path_exists main visualize (p : string) :
  steps main visualize (path_exists p).
Proof. intros w. apply extends_refl. Qed.

Lemma steps_when main visualize (b : bool) (m : M unit) :
  steps main visualize m → steps main visualize (when b m).
Proof. destruct b; [done|]. intros _. apply steps_ret. Qed.

Lemma steps_subscript main visualize {A} (l : list A) (i : nat) :
  steps main visualize (subscript l i).
Proof.
  unfold subscript. destruct (l !! i); [apply steps_ret|apply steps_raise].
Qed.

Lemma steps_visualize_each main img_ids imgs predictions :
  ∀ i, steps main true (visualize_each img_ids imgs i predictions).
Proof.
  induction predictions as [|prediction rest IH]; intros i; simpl.
  - apply steps_ret.
  - apply steps_bind; [apply steps_subscript|intros img].
    apply steps_bind; [apply steps_subscript|intros img_id].
    apply steps_bind; [|intros _; apply IH].
    unfold imwrite. apply steps_bind; [|intros _].
    + apply steps_emit. simpl. eauto.
    + apply steps_touch. left. eauto.
Qed.

Lemma steps_visualize_detection main img_ids imgs predictions :
  steps main true (visualize_detection img_ids imgs predictions).
Proof.
  unfold visualize_detection.
  apply steps_bind; [apply steps_path_exists|intros found].
  apply steps_bind; [|intros _; apply steps_visualize_each].
  apply steps_when. unfold mkdir. apply steps_bind; [|intros _].
  - apply steps_emit. simpl. by left.
  - apply steps_touch. left. eauto.
Qed.

Lemma steps_test_loop timer visualize batches :
  ∀ i results_dict,
    steps false visualize (test_loop timer visualize i batches results_dict).
Proof.
  induction batches as [|data rest IH]; intros i results_dict; simpl.
  - apply steps_ret.
  - apply steps_bind; [|intros _].
    { apply steps_when, steps_emit. done. }
    apply steps_bind; [|intros _].
    { apply steps_when, steps_emit. done. }
    apply steps_bind; [|intros _].
    { apply steps_when.
      apply steps_bind; [|intros _]; by apply steps_emit. }
    apply steps_bind; [|intros _; apply IH].
    destruct visualize; [apply steps_visualize_detection|apply steps_ret].
Qed.





(** ** Visualisation *)

Lemma visualize_each_run img_ids imgs predictions :
  ∀ (i : nat) (w : world),
    (i + length predictions ≤ length imgs)%nat →
    (i + length predictions ≤ length img_ids)%nat →
    let files := detections (drop i img_ids) (drop i imgs) predictions in
    ∃ w',
      visualize_each img_ids imgs i predictions w = (Return (), w') ∧
      heap w' = heap w ∧
      trace w' = trace w ++ write_events files ∧
      (∀ p, p ∈ paths w' ↔ p ∈ files.*1.*1 ∨ p ∈ paths w) ∧
      files.*2 = predictions.
Proof.
  induction predictions as [|prediction rest IH]; intros i w Himgs Hids files.
  - exists w. unfold files, detections, write_events.
    rewrite zip_with_nil_r. simpl. rewrite app_nil_r.
    repeat split; try done.
    + by right.
    + intros [Hin|?]; [by apply elem_of_nil in Hin|done].
  - simpl length in *.
    destruct (lookup_lt_is_Some_2 imgs i) as [img Himg]; [lia|].
    destruct (lookup_lt_is_Some_2 img_ids i) as [img_id Hid]; [lia|].
    set (w1 := World (heap w) ({[detection_file img_id]} ∪ paths w)
                 (trace w ++ [EImwrite (detection_file img_id) img prediction])).
    destruct (IH (S i) w1) as (w' & Hrun & Hheap & Htrace & Hpaths & Hpreds);
      [lia|lia|].
    exists w'. unfold files.
    rewrite (drop_S _ _ _ Himg), (drop_S _ _ _ Hid).
    unfold detections, write_events in *. simpl.
    split. { unfold subscript, imwrite. rewrite Himg, Hid. run. exact Hrun. }
    split; [done|].
    split. { rewrite Htrace. simpl. by rewrite <-app_assoc. }
    split; [|f_equal; exact Hpreds].
    intros p. rewrite Hpaths. simpl.
    rewrite elem_of_cons, elem_of_union, elem_of_singleton. tauto.
Qed.

Lemma visualize_detection_run img_ids imgs predictions (w : world) :
  (length predictions ≤ length imgs)%nat →
  (length predictions ≤ length img_ids)%nat →
  let files := detections img_ids imgs predictions in
  ∃ w',
    visualize_detection img_ids imgs predictions w = (Return (), w') ∧
    heap w' = heap w ∧
    trace w' =
      trace w ++
      (if decide ("visualize"%string ∈ paths w) then []
       else [EMkdir "visualize"]) ++
      write_events files ∧
    "visualize"%string ∈ paths w' ∧
    (∀ p, p ∈ files.*1.*1 → p ∈ paths w') ∧
    length files = length predictions ∧
    files.*2 = predictions.
Proof.
  intros Himgs Hids files. unfold visualize_detection, mkdir. run.
  destruct (decide ("visualize"%string ∈ paths w)) as [Hin|Hnin].
  - rewrite bool_decide_eq_true_2 by done. run.
    destruct (visualize_each_run img_ids imgs predictions 0 w)
      as (w' & Hrun & Hheap & Htrace & Hpaths & Hpreds); [done|done|].
    rewrite !drop_0 in *. fold files in Htrace, Hpaths, Hpreds.
    exists w'. split; [done|]. split; [done|]. split; [done|].
    split; [apply Hpaths; by right|].
    split; [intros p Hp; apply Hpaths; by left|].
    split; [|done].
    transitivity (length files.*2); [by rewrite length_fmap|by rewrite Hpreds].
  - rewrite bool_decide_eq_false_2 by done. run.
    set (w1 := World (heap w) ({["visualize"%string]} ∪ paths w)
                 (trace w ++ [EMkdir "visualize"])).
    destruct (visualize_each_run img_ids imgs predictions 0 w1)
      as (w' & Hrun & Hheap & Htrace & Hpaths & Hpreds); [done|done|].
    rewrite !drop_0 in *. fold files in Htrace, Hpaths, Hpreds.
    exists w'. split; [done|]. split; [done|].
    split; [rewrite Htrace; simpl; by rewrite <-app_assoc|].
    split; [apply Hpaths; right; simpl; apply elem_of_union; left;
            by apply elem_of_singleton|].
    split; [intros p Hp; apply Hpaths; by left|].
    split; [|done].
    transitivity (length files.*2); [by rewrite length_fmap|by rewrite Hpreds].
Qed.

(** ** The test loop *)

Lemma jpeg_writes_app (tr1 tr2 : list event) :
  jpeg_writes (tr1 ++ tr2) = jpeg_writes tr1 ++ jpeg_writes tr2.
Proof. apply omap_app. Qed.

Lemma jpeg_writes_write_events (files : list (string * Image * BoxList)) :
  jpeg_writes (write_events files) = files.
Proof.
  induction files as [|[[p img] top] files IH]; [done|].
  simpl. by rewrite IH.
Qed.

Lemma test_loop_run timer visualize batches :
  ∀ (i : Z) (results_dict : gmap Z BoxList) (w : world),
    (visualize = true → Forall batch_ok batches) →
    ∃ w',
      test_loop timer visualize i batches results_dict w =
        (Return (results_of batches results_dict), w') ∧
      jpeg_writes (trace w') =
        jpeg_writes (trace w) ++
        if visualize then
          flat_map (λ data,
                      detections (image_ids data) (tensors data) (output data))
                   batches
        else [].
Proof.
  induction batches as [|data rest IH]; intros i results_dict w Hok.
  - exists w. simpl. split; [done|]. destruct visualize; by rewrite app_nil_r.
  - simpl test_loop. simpl results_of.
    destruct visualize.
    + specialize (Hok eq_refl). apply Forall_cons in Hok as [[Himgs Hids] Hrest].
      destruct (bool_decide (i `mod` 10 = 0)), timer; run;
        match goal with
        | |- context [visualize_detection ?a ?b ?c ?w0] =>
            destruct (visualize_detection_run a b c w0 Himgs Hids)
              as (w1 & Hrun1 & _ & Htrace1 & _); rewrite Hrun1
        end;
        match goal with
        | |- context [test_loop ?t ?v ?j ?bs ?acc ?w0] =>
            destruct (IH j acc w0 (λ _, Hrest)) as (w2 & Hrun2 & Hjpeg2)
        end;
        exists w2; (split; [exact Hrun2|]);
        rewrite Hjpeg2, Htrace1; simpl trace; simpl paths;
        rewrite !jpeg_writes_app, jpeg_writes_write_events;
        (destruct (decide _); simpl);
        by rewrite ?app_nil_r, <-?app_assoc.
    + destruct (bool_decide (i `mod` 10 = 0)), timer; run;
        match goal with
        | |- context [test_loop ?t ?v ?j ?bs ?acc ?w0] =>
            destruct (IH j acc w0) as (w2 & Hrun2 & Hjpeg2); [done|]
        end;
        exists w2; (split; [exact Hrun2|]);
        rewrite Hjpeg2; simpl trace;
        rewrite ?jpeg_writes_app; simpl; by rewrite ?app_nil_r.
Qed.

(** ** What the bounds exclude *)

Lemma torch_saves_app (tr1 tr2 : list event) :
  torch_saves (tr1 ++ tr2) = torch_saves tr1 ++ torch_saves tr2.
Proof. apply omap_app. Qed.

Lemma worker_events_quiet visualize (evs : list event) :
  Forall (allowed false visualize) evs →
  torch_saves evs = [] ∧ filter (λ e, main_only e = true) evs = [].
Proof.
  induction 1 as [|e evs He _ [IH1 IH2]]; [done|].
  rewrite filter_cons. simpl.
  destruct e; simpl in *; try done.
  - destruct He as [[_ ->]|[? _]]; [|done].
    by rewrite decide_False by done.
  - by destruct He.
Qed.



(** ** [test] on the main process *)


(** ** [test] off the main process *)

Lemma worker_paths visualize (p : string) :
  p = "results"%string ∨ p = "results/predictions.pth"%string →
  ¬ allowed_path false visualize p.
Proof.
  intros Hp Hallowed. unfold allowed_path, detection_file in Hallowed.
  destruct Hallowed as [[_ [Hv|[img_id Hd]]]|[Hmain _]].
  - destruct Hp; simplify_eq.
  - destruct Hp; simplify_eq.
  - done.
Qed.


(** ** JPEG images *)


(** ** The final checkpoint *)

(** The final checkpoints among those of a run: one for each iteration
    [i] of the run with [i + 1 = max_iter]. *)
Lemma final_saved (period max_iter : Z) (args : gmap string pyval)
    (iterations : list Z) :
  filter (λ c, c.1 = "checkpoint_final"%string)
    (flat_map (saved_at period max_iter args) iterations) =
  (λ i, ("checkpoint_final"%string, <["iteration" := VInt i]> args)) <$>
    filter (λ i, i + 1 = max_iter) iterations.
Proof.
  induction iterations as [|i rest IH]; [done|].
  simpl flat_map. rewrite filter_app, IH, filter_cons. unfold saved_at.
  pose proof (checkpoint_name_not_final i) as Hname.
  destruct (decide ((period | i + 1))), (decide (i + 1 = max_iter)).
  - rewrite filter_app, !filter_cons, !filter_nil. cbn [fst app].
    rewrite decide_False by done. by rewrite decide_True by done.
  - cbn [app]. rewrite !filter_cons, !filter_nil. cbn [fst app].
    by rewrite decide_False by done.
  - cbn [app]. rewrite !filter_cons, !filter_nil. cbn [fst app].
    by rewrite decide_True by done.
  - done.
Qed.

Lemma filter_seqZ_final (max_iter : Z) (n : nat) :
  ∀ start_iter,
    filter (λ i, i + 1 = max_iter) (seqZ start_iter (Z.of_nat n)) =
    if decide (start_iter ≤ max_iter - 1 < start_iter + Z.of_nat n)
    then [max_iter - 1] else [].
Proof.
  induction n as [|n IH]; intros start_iter.
  - simpl. by rewrite decide_False by lia.
  - rewrite (seqZ_cons start_iter) by lia.
    replace (Z.pred (Z.of_nat (S n))) with (Z.of_nat n) by lia.
    rewrite filter_cons, IH.
    destruct (decide (start_iter + 1 = max_iter)) as [Heq|Hne].
    + rewrite decide_False by lia. rewrite decide_True by lia.
      f_equal. lia.
    + destruct (decide (Z.succ start_iter ≤ max_iter - 1
                        < Z.succ start_iter + Z.of_nat n)).
      * by rewrite decide_True by lia.
      * by rewrite decide_False by lia.
Qed.

(** X16: in a run that completes, the final checkpoint is written in the
    iteration [max_iter - 1], if the run goes through it, and at most once:
    with [n] batches from
    [start_iter], that is the last iteration of the run only when
    [start_iter + n = max_iter]. *)
Lemma train_final_checkpoint (self : SceneGraphGeneration)
    (w : world) (args : gmap string pyval) (start_iter : Z) :
  heap w !! arguments self = Some args →
  args !! "iteration" = Some (VInt start_iter) →
  args !! "name" = None →
  SOLVER_CHECKPOINT_PERIOD (cfg self) ≠ 0 →
  Forall loss_dict_ok (train_batches (data_loader_train self)) →
  etas_ok (Z.of_nat (train_len (data_loader_train self))) start_iter
    (train_batches (data_loader_train self)) →
  let n := Z.of_nat (length (train_batches (data_loader_train self))) in
  let max_iter := Z.of_nat (train_len (data_loader_train self)) in
  ∃ saved w',
    train self w = (Return (), w') ∧
    checkpoints (trace w') = checkpoints (trace w) ++ saved ∧
    filter (λ c, c.1 = "checkpoint_final"%string) saved =
      if decide (start_iter ≤ max_iter - 1 < start_iter + n) then
        [("checkpoint_final"%string,
          <["iteration" := VInt (max_iter - 1)]> args)]
      else [].
Proof.
  intros Hargs Hiter Hname Hperiod Hok Hetas n max_iter.
  destruct (train_run self w args start_iter Hargs Hiter Hname Hperiod Hok
              Hetas)
    as (ls & w' & Hrun & _ & _ & _ & Hck & _ & _).
  eexists _, w'. split; [done|]. split; [exact Hck|].
  rewrite final_saved, filter_seqZ_final. fold n max_iter.
  by destruct (decide _).
Qed.

(** * Further properties *)

(** ** The list returned by the accumulation *)

(** A duplicate-free ascending list that starts no lower than [a] and
    ends at [a + length - 1] counts up from [a]. *)
Lemma contiguous_lookup (l : list Z) :
  ∀ a, StronglySorted Z.le l → NoDup l → Forall (Z.le a) l →
       last l = Some (a + Z.of_nat (length l) - 1) →
       ∀ i x, l !! i = Some x → x = a + Z.of_nat i.
Proof.
  induction l as [|y l IH]; intros a Hs Hnd Hge Hlast i x Hi; [done|].
  pose proof Hs as Hs0. pose proof Hnd as Hnd0.
  apply StronglySorted_inv in Hs as [Hs Hy].
  apply NoDup_cons in Hnd as [Hny Hnd].
  apply Forall_cons in Hge as [Hay Hge].
  assert (Forall (Z.le (y + 1)) l) as Hge'.
  { apply Forall_forall. intros z Hz.
    rewrite Forall_forall in Hy. specialize (Hy z Hz).
    assert (z ≠ y) by (intros ->; done). lia. }
  assert (y = a) as ->.
  { destruct l as [|z l'].
    - simpl in Hlast. simplify_eq. lia.
    - change (last (y :: z :: l')) with (last (z :: l')) in Hlast.
      pose proof (last_lower_bound _ (y + 1) _ Hs Hnd Hge' Hlast) as Hlow.
      simpl length in *. lia. }
  destruct i as [|i]; simpl in Hi; [simplify_eq; lia|].
  destruct l as [|z l']; [done|].
  change (last (a :: z :: l')) with (last (z :: l')) in Hlast.
  rewrite (IH (a + 1) Hs Hnd Hge') with (i := i) (x := x); [lia| |done].
  rewrite Hlast. f_equal. simpl length. lia.
Qed.

(** X1: when the gathered image ids are exactly 0 .. N-1, the list the
    main process gets back is indexed by image id: its entry [k] is the
    merged prediction of image [k]. *)
Theorem accumulate_indexed_by_image_id
    (predictions_per_gpu : gmap Z BoxList) (w : world) :
  is_main_process = true →
  let merged := merge_dicts (all_gather predictions_per_gpu) in
  merged ≠ ∅ →
  dom merged = list_to_set (seqZ 0 (Z.of_nat (size merged))) →
  ∃ ps,
    (_accumulate_predictions_from_multiple_gpus predictions_per_gpu w).1 =
      Return (Some ps) ∧
    ∀ k, 0 ≤ k → ps !! Z.to_nat k = merged !! k.
Proof.
  intros Hmain merged Hne Hdom.
  destruct (last (sorted_keys merged)) as [final|] eqn:Hlast.
  2:{ apply last_None in Hlast. by apply sorted_keys_nil in Hlast. }
  destruct (accumulate_on_main predictions_per_gpu w final Hmain Hlast)
    as (ps & Hrun & Hps). fold merged in Hps.
  exists ps. split; [by rewrite Hrun|].
  assert (∀ i, i ∈ dom merged → 0 ≤ i) as Hnn.
  { intros i. rewrite Hdom, elem_of_list_to_set, elem_of_seqZ. lia. }
  pose proof (proj2 (contiguous_iff_last merged final Hnn Hlast) Hdom) as Hlen.
  assert (Forall (Z.le 0) (sorted_keys merged)) as Hge.
  { apply Forall_forall. intros i Hi. apply Hnn.
    by apply elem_of_dom, elem_of_sorted_keys. }
  assert (last (sorted_keys merged) =
          Some (0 + Z.of_nat (length (sorted_keys merged)) - 1)) as Hlast'
    by (rewrite Hlast; f_equal; lia).
  pose proof (contiguous_lookup _ 0 (sorted_keys_le merged)
                (NoDup_sorted_keys merged) Hge Hlast') as Hcount.
  pose proof (Forall2_length _ _ _ Hps) as Hlenps.
  intros k Hk.
  destruct (decide (Z.to_nat k < length (sorted_keys merged))%nat) as [Hlt|Hgt].
  - destruct (lookup_lt_is_Some_2 _ _ Hlt) as [x Hx].
    pose proof (Hcount _ _ Hx) as ->.
    destruct (Forall2_lookup_l _ _ _ _ _ Hps Hx) as (v & Hv & Hkv).
    rewrite Hv. rewrite <-Hkv. f_equal. lia.
  - rewrite lookup_ge_None_2 by lia. symmetry.
    apply not_elem_of_dom. rewrite Hdom, elem_of_list_to_set, elem_of_seqZ.
    rewrite length_sorted_keys in Hgt. lia.
Qed.

(** ** Effects of inference, whatever its outcome *)

Lemma appends_refl ok w : appends ok w w.
Proof.
  split; [done|]. split; [done|]. exists []. by rewrite app_nil_r.
Qed.

Lemma appends_trans ok w1 w2 w3 :
  appends ok w1 w2 → appends ok w2 w3 → appends ok w1 w3.
Proof.
  intros (Hh1 & Hp1 & evs1 & Ht1 & He1) (Hh2 & Hp2 & evs2 & Ht2 & He2).
  split; [congruence|]. split; [auto|].
  exists (evs1 ++ evs2). rewrite Ht2, Ht1, app_assoc.
  split; [done|]. by apply Forall_app.
Qed.

Lemma emits_only_weaken (ok ok' : event → Prop) {A} (m : M A) :
  (∀ e, ok e → ok' e) → emits_only ok m → emits_only ok' m.
Proof.
  intros Hok Hm w. destruct (Hm w) as (Hh & Hp & evs & Ht & He).
  split; [done|]. split; [done|]. exists evs. split; [done|].
  eapply Forall_impl; eauto.
Qed.

Lemma emits_only_ret ok {A} (a : A) : emits_only ok (ret a).
Proof. intros w. apply appends_refl. Qed.

Lemma emits_only_raise ok {A} (e : exn) : emits_only ok (raise (A:=A) e).
Proof. intros w. apply appends_refl. Qed.

Lemma emits_only_bind ok {A B} (m : M A) (k : A → M B) :
  emits_only ok m → (∀ a, emits_only ok (k a)) → emits_only ok (m ≫= k).
Proof.
  intros Hm Hk w. specialize (Hm w). unfold mbind, M_bind, bind.
  destruct (m w) as [[a|e] w1]; simpl in *; [|done].
  eapply appends_trans; [exact Hm|apply Hk].
Qed.

Lemma emits_only_emit (ok : event → Prop) (e : event) :
  ok e → emits_only ok (emit e).
Proof.
  intros He w. split; [done|]. split; [done|]. exists [e].
  split; [done|]. by apply Forall_singleton.
Qed.

Lemma emits_only_touch ok (p : string) : emits_only ok (touch p).
Proof.
  intros w. split; [done|]. split.
  - intros q Hq. simpl. apply elem_of_union. by right.
  - exists []. by rewrite app_nil_r.
Qed.

Lemma emits_only_when ok (b : bool) (m : M unit) :
  emits_only ok m → emits_only ok (when b m).
Proof. destruct b; [done|]. intros _. apply emits_only_ret. Qed.

Lemma emits_only_subscript ok {A} (l : list A) (i : nat) :
  emits_only ok (subscript l i).
Proof.
  unfold subscript.
  destruct (l !! i); [apply emits_only_ret|apply emits_only_raise].
Qed.

Lemma emits_only_visualize_each img_ids imgs predictions :
  ∀ i, emits_only loop_event (visualize_each img_ids imgs i predictions).
Proof.
  induction predictions as [|prediction rest IH]; intros i; simpl.
  - apply emits_only_ret.
  - apply emits_only_bind; [apply emits_only_subscript|intros img].
    apply emits_only_bind; [apply emits_only_subscript|intros img_id].
    apply emits_only_bind; [|intros _; apply IH].
    unfold imwrite. apply emits_only_bind; [|intros _].
    + by apply emits_only_emit.
    + apply emits_only_touch.
Qed.

Lemma emits_only_visualize_detection img_ids imgs predictions :
  emits_only loop_event (visualize_detection img_ids imgs predictions).
Proof.
  unfold visualize_detection.
  apply emits_only_bind; [intros w; apply appends_refl|intros found].
  apply emits_only_bind; [|intros _; apply emits_only_visualize_each].
  apply emits_only_when. unfold mkdir. apply emits_only_bind; [|intros _].
  - by apply emits_only_emit.
  - apply emits_only_touch.
Qed.

Lemma emits_only_test_loop timer visualize batches :
  ∀ i results_dict,
    emits_only loop_event
      (test_loop timer visualize i batches results_dict).
Proof.
  induction batches as [|data rest IH]; intros i results_dict; simpl.
  - apply emits_only_ret.
  - apply emits_only_bind; [|intros _].
    { by apply emits_only_when, emits_only_emit. }
    apply emits_only_bind; [|intros _].
    { by apply emits_only_when, emits_only_emit. }
    apply emits_only_bind; [|intros _].
    { apply emits_only_when.
      apply emits_only_bind; [|intros _]; by apply emits_only_emit. }
    apply emits_only_bind; [|intros _; apply IH].
    apply emits_only_when, emits_only_visualize_detection.
Qed.

(** Subscripting a dictionary has no effect at all. *)
Lemma subscript_all_world (d : gmap Z BoxList) (ids : list Z) (w : world) :
  (subscript_all d ids w).2 = w.
Proof.
  induction ids as [|i ids IH]; simpl; [done|].
  destruct (d !! i); [|done]. run.
  destruct (subscript_all d ids w) as [[ps|e] w'] eqn:Hrun; by simpl in *.
Qed.

Lemma emits_only_accumulate (predictions_per_gpu : gmap Z BoxList) :
  emits_only test_event
    (_accumulate_predictions_from_multiple_gpus predictions_per_gpu).
Proof.
  unfold _accumulate_predictions_from_multiple_gpus.
  apply emits_only_bind; [by apply emits_only_emit|intros _].
  destruct (negb is_main_process); [apply emits_only_ret|].
  apply emits_only_bind; [|intros final].
  { destruct (last _); [apply emits_only_ret|apply emits_only_raise]. }
  apply emits_only_bind; [|intros _].
  { by apply emits_only_when, emits_only_emit. }
  apply emits_only_bind; [|intros ps; apply emits_only_ret].
  intros w. rewrite subscript_all_world. apply appends_refl.
Qed.

Lemma loop_event_test_event e : loop_event e → test_event e.
Proof. by destruct e. Qed.

Lemma emits_only_test_finish (self : SceneGraphGeneration)
    (results_dict : gmap Z BoxList) :
  emits_only test_event (test_finish self results_dict).
Proof.
  unfold test_finish.
  apply emits_only_bind; [by apply emits_only_emit|intros _].
  apply emits_only_bind; [|intros _].
  { destruct (decide _); [apply emits_only_raise|by apply emits_only_emit]. }
  apply emits_only_bind; [by apply emits_only_emit|intros _].
  apply emits_only_bind; [apply emits_only_accumulate|intros predictions].
  destruct (negb is_main_process); [apply emits_only_ret|].
  apply emits_only_bind; [intros w; apply appends_refl|intros found].
  apply emits_only_bind; [|intros _].
  { apply emits_only_when. unfold mkdir. apply emits_only_bind; [|intros _].
    - by apply emits_only_emit.
    - apply emits_only_touch. }
  apply emits_only_bind; [|intros _].
  { unfold torch_save. apply emits_only_bind; [|intros _].
    - by apply emits_only_emit.
    - apply emits_only_touch. }
  apply emits_only_bind; [by apply emits_only_emit|intros _].
  apply emits_only_ret.
Qed.

(** X2: whatever its outcome, [test] leaves the dictionaries of the heap
    ([self.arguments] among them) as they were, removes no path, and makes
    no call to the scheduler, the meters, the optimizer ([zero_grad],
    [backward], [step]) or the checkpointer. *)
Theorem test_never_trains (self : SceneGraphGeneration)
    (timer visualize : bool) (w : world) :
  let w' := (test self timer visualize w).2 in
  heap w' = heap w ∧
  (∀ p, p ∈ paths w → p ∈ paths w') ∧
  ∃ evs, trace w' = trace w ++ evs ∧ Forall test_event evs ∧
         checkpoints evs = [] ∧ backwards evs = [] ∧ meter_losses evs = [].
Proof.
  assert (emits_only test_event (test self timer visualize)) as Htest.
  { unfold test.
    apply emits_only_bind; [by apply emits_only_emit|intros _].
    apply emits_only_bind; [by apply emits_only_emit|intros _].
    apply emits_only_bind; [|intros results; apply emits_only_test_finish].
    eapply emits_only_weaken; [apply loop_event_test_event|].
    apply emits_only_test_loop. }
  destruct (Htest w) as (Hheap & Hpaths & evs & Htrace & Hevs).
  simpl. split; [done|]. split; [done|]. exists evs.
  split; [done|]. split; [done|].
  clear Htrace. induction Hevs as [|e evs He _ (IH1 & IH2 & IH3)]; [done|].
  by destruct e.
Qed.

(** ** Failures of [test] *)

Lemma gathers_app (tr1 tr2 : list event) :
  gathers (tr1 ++ tr2) = gathers tr1 ++ gathers tr2.
Proof. apply omap_app. Qed.

Lemma loop_events_quiet (evs : list event) :
  Forall loop_event evs → gathers evs = [] ∧ torch_saves evs = [].
Proof.
  induction 1 as [|e evs He _ (IH1 & IH2)]; [done|]. by destruct e.
Qed.

(** X3: with an empty test dataset, [test] raises ZeroDivisionError when
    it reports the run time (it divides by the size of the dataset): the
    synchronisation barrier is its last act, no gather is attempted and
    nothing is saved. *)
Theorem test_empty_dataset_raises (self : SceneGraphGeneration)
    (timer visualize : bool) (w : world) :
  dataset_len (data_loader_test self) = 0%nat →
  (visualize = true →
   Forall batch_ok (test_batches (data_loader_test self))) →
  let run := test self timer visualize w in
  run.1 = Raise ZeroDivisionError ∧
  last (trace run.2) = Some ESynchronize ∧
  gathers (trace run.2) = gathers (trace w) ∧
  torch_saves (trace run.2) = torch_saves (trace w).
Proof.
  intros Hdata Hok. unfold test, test_finish. run.
  match goal with
  | |- context [test_loop ?t ?v ?j ?bs ?acc ?w0] =>
      destruct (test_loop_run t v bs j acc w0 Hok) as (w1 & Hrun1 & _);
      destruct (emits_only_test_loop t v bs j acc w0)
        as (_ & _ & evs & Ht & He);
      rewrite Hrun1 in Ht |- *
  end.
  simpl in Ht. run. rewrite (decide_True _ _ Hdata). simpl.
  apply loop_events_quiet in He as [Hg Hs].
  split; [done|]. split; [apply last_snoc|].
  rewrite Ht, !gathers_app, !torch_saves_app, Hg, Hs. simpl.
  by rewrite !app_nil_r.
Qed.

(** X4: on the main process, when no image id was gathered, [test] raises
    the IndexError of the accumulation before it touches the results: no
    folder is created, nothing is saved, [evaluate] is not called. *)
Theorem test_nothing_gathered_raises (self : SceneGraphGeneration)
    (timer visualize : bool) (w : world) :
  is_main_process = true →
  dataset_len (data_loader_test self) ≠ 0%nat →
  (visualize = true →
   Forall batch_ok (test_batches (data_loader_test self))) →
  merge_dicts
    (all_gather (results_of (test_batches (data_loader_test self)) ∅)) = ∅ →
  let run := test self timer visualize w in
  run.1 = Raise IndexError ∧
  filter (λ e, main_only e = true) (trace run.2) =
    filter (λ e, main_only e = true) (trace w) ∧
  ("results"%string ∈ paths run.2 → "results"%string ∈ paths w).
Proof.
  intros Hmain Hdata Hok Hempty. unfold test, test_finish. run.
  match goal with
  | |- context [test_loop ?t ?v ?j ?bs ?acc ?w0] =>
      destruct (test_loop_run t v bs j acc w0 Hok) as (w1 & Hrun1 & _);
      destruct (steps_test_loop t v bs j acc w0) as [(evs & Ht & He) Hp];
      rewrite Hrun1 in Ht, Hp |- *
  end.
  simpl in Ht, Hp. run. rewrite (decide_False _ _ Hdata). run.
  rewrite accumulate_on_empty by done. simpl.
  apply worker_events_quiet in He as [_ Hq].
  split; [done|]. split.
  - rewrite Ht, !filter_app, Hq. simpl. by rewrite !app_nil_r.
  - intros Hin. destruct (Hp _ Hin) as [?|Hbad]; [done|].
    exfalso. eapply worker_paths; [|exact Hbad]. auto.
Qed.

(** ** Visualising a batch that lacks images or ids *)





(** ** The order of the gathered dictionaries *)

Lemma lookup_merge_dicts_Some (all_predictions : list (gmap Z BoxList)) k v :
  merge_dicts all_predictions !! k = Some v →
  ∃ p, p ∈ all_predictions ∧ p !! k = Some v.
Proof.
  induction all_predictions as [|q l IH] using rev_ind.
  - unfold merge_dicts. simpl. by rewrite lookup_empty.
  - rewrite merge_dicts_snoc. intros [Hq|[_ Hl]]%lookup_union_Some_raw.
    + exists q. split; [|done]. apply elem_of_app. right. constructor.
    + destruct (IH Hl) as (p & Hp & Hk). exists p. split; [|done].
      apply elem_of_app. by left.
Qed.

Lemma lookup_merge_dicts_disjoint (all_predictions : list (gmap Z BoxList))
    p k v :
  disjoint_ids all_predictions →
  p ∈ all_predictions → p !! k = Some v →
  merge_dicts all_predictions !! k = Some v.
Proof.
  intros Hdis Hp Hk.
  apply list_elem_of_split in Hp as (before & after & ->).
  apply lookup_merge_dicts_latest; [done|].
  specialize (Hdis k). rewrite filter_app, filter_cons in Hdis.
  rewrite decide_True in Hdis by eauto.
  rewrite length_app in Hdis. simpl in Hdis.
  apply Forall_forall. intros q Hq.
  destruct (q !! k) eqn:Hqk; [|done]. exfalso.
  assert (q ∈ filter (λ p, is_Some (p !! k)) after) as Hin
    by (apply list_elem_of_filter; eauto).
  destruct (filter _ after); [by apply elem_of_nil in Hin|].
  simpl in Hdis. lia.
Qed.

Lemma merge_dicts_perm (all1 all2 : list (gmap Z BoxList)) :
  all1 ≡ₚ all2 → disjoint_ids all1 → merge_dicts all1 = merge_dicts all2.
Proof.
  intros Hperm Hdis1.
  assert (disjoint_ids all2) as Hdis2.
  { intros k. specialize (Hdis1 k). by rewrite <-Hperm. }
  apply map_eq. intros k.
  destruct (merge_dicts all1 !! k) as [v|] eqn:H1.
  - apply lookup_merge_dicts_Some in H1 as (p & Hp & Hk).
    symmetry. eapply lookup_merge_dicts_disjoint; [done| |done].
    by rewrite <-Hperm.
  - symmetry. rewrite lookup_merge_dicts_None in H1 |- *.
    by rewrite <-Hperm.
Qed.

(** ** More on [train] *)

(** X7: with a checkpoint period of 0, [train] raises ZeroDivisionError in
    its first iteration, once the backward pass of that iteration is done
    and the estimate of the time left is formed (an estimate out of range
    raises first): the iteration counter is set, one loss has been
    backpropagated, and no checkpoint is written. *)
Theorem train_zero_period_raises (self : SceneGraphGeneration) (w : world)
    (args : gmap string pyval) (start_iter : Z)
    (data : train_batch) (rest : list train_batch) :
  heap w !! arguments self = Some args →
  args !! "iteration" = Some (VInt start_iter) →
  SOLVER_CHECKPOINT_PERIOD (cfg self) = 0 →
  train_batches (data_loader_train self) = data :: rest →
  loss_dict_ok data →
  eta_ok (Z.of_nat (train_len (data_loader_train self))) start_iter data →
  ∃ v vs w',
    (loss_dict data).*2 = v :: vs ∧
    train self w = (Raise ZeroDivisionError, w') ∧
    backwards (trace w') = backwards (trace w) ++ [foldl tensor_add v vs] ∧
    checkpoints (trace w') = checkpoints (trace w) ∧
    heap w' !! arguments self = Some (<["iteration" := VInt start_iter]> args).
Proof.
  intros Hargs Hiter Hperiod Hbatches [Hne Hloss] Heta. unfold eta_ok in Heta.
  destruct (eta_string (global_avg data) _ start_iter) as [eta|] eqn:Heta';
    [clear Heta|done].
  destruct ((loss_dict data).*2) as [|v vs] eqn:Hvals.
  { destruct (loss_dict data); [done|discriminate]. }
  assert (py_sum (loss_dict data).*2 = Some (foldl tensor_add v vs)) as Hsum
    by (by rewrite Hvals).
  exists v, vs. unfold train. rewrite Hbatches. simpl train_loop.
  unfold train_iteration, py_mod. run. rewrite Hargs. run.
  rewrite Hiter. run. rewrite Hargs. run.
  rewrite decide_False by done. run. rewrite Hsum. run. rewrite Heta'. run.
  rewrite Hperiod. rewrite decide_True by done.
  destruct (bool_decide _); run;
    (eexists; split; [done|]; split; [reflexivity|]; simpl);
    unfold backwards, checkpoints; rewrite !omap_app; simpl;
    rewrite ?app_nil_r, lookup_insert_eq; done.
Qed.

Lemma train_loop_last_iteration (self : SceneGraphGeneration) (max_iter : Z)
    (batches : list train_batch) :
  ∀ (i : Z) (w : world) (args : gmap string pyval),
    heap w !! arguments self = Some args →
    args !! "name" = None →
    SOLVER_CHECKPOINT_PERIOD (cfg self) ≠ 0 →
    Forall loss_dict_ok batches →
    etas_ok max_iter i batches →
    batches ≠ [] →
    ∃ w',
      train_loop self max_iter i batches w = (Return (), w') ∧
      heap w' !! arguments self =
        Some (<["iteration" := VInt (i + Z.of_nat (length batches) - 1)]> args).
Proof.
  induction batches as [|data rest IH];
    intros i w args Hargs Hname Hperiod Hok Hetas Hne; [done|].
  apply Forall_cons in Hok as [Hdata Hrest]. destruct Hetas as [Heta Hetas].
  destruct (train_iteration_run self max_iter i data w args
              Hargs Hname Hperiod Hdata Heta)
    as (l & w1 & Hrun1 & _ & Hheap1 & _).
  assert (heap w1 !! arguments self = Some (<["iteration" := VInt i]> args))
    as Hargs1 by (rewrite Hheap1; apply lookup_insert_eq).
  assert (<["iteration" := VInt i]> args !! "name" = None) as Hname1
    by by rewrite lookup_insert_ne.
  simpl train_loop. run. rewrite Hrun1.
  destruct rest as [|data' rest'].
  - exists w1. split; [done|]. rewrite Hargs1. do 2 f_equal.
    simpl length. f_equal. lia.
  - destruct (IH (i + 1) w1 _ Hargs1 Hname1 Hperiod Hrest Hetas)
      as (w2 & Hrun2 & Hheap2); [done|].
    exists w2. split; [exact Hrun2|]. rewrite Hheap2, insert_insert_eq.
    do 3 f_equal. simpl length. lia.
Qed.

Lemma written_app (tr1 tr2 : list event) :
  ∀ begun,
    written begun (tr1 ++ tr2) =
    written begun tr1 ++ written (begun + steps_taken tr1) tr2.
Proof.
  induction tr1 as [|e tr1 IH]; intros begun.
  - simpl. by rewrite Nat.add_0_r.
  - destruct e; simpl; rewrite ?IH; try done.
    unfold steps_taken. simpl. by rewrite Nat.add_succ_r.
Qed.

Lemma written_checkpoints (tr : list event) :
  ∀ begun, (written begun tr).*2 = checkpoints tr.
Proof.
  induction tr as [|e tr IH]; intros begun; [done|].
  destruct e; simpl; rewrite ?IH; done.
Qed.

(** The events of one iteration: one step of the scheduler, and the
    checkpoints of the iteration after it. *)
Lemma train_iteration_written (self : SceneGraphGeneration) (max_iter i : Z)
    (data : train_batch) (w : world) (args : gmap string pyval) :
  heap w !! arguments self = Some args →
  args !! "name" = None →
  SOLVER_CHECKPOINT_PERIOD (cfg self) ≠ 0 →
  loss_dict_ok data →
  eta_ok max_iter i data →
  ∃ evs,
    trace (train_iteration self max_iter i data w).2 = trace w ++ evs ∧
    steps_taken evs = 1%nat ∧
    ∀ begun,
      written begun evs =
      (λ c, (S begun, c)) <$>
        saved_at (SOLVER_CHECKPOINT_PERIOD (cfg self)) max_iter args i.
Proof.
  intros Hargs Hname Hperiod [Hne Hloss] Heta. unfold eta_ok in Heta.
  destruct (eta_string (global_avg data) max_iter i) as [eta|] eqn:Heta';
    [clear Heta|done].
  destruct (py_sum (loss_dict data).*2) as [l|] eqn:Hsum.
  2:{ destruct (loss_dict data); [done|discriminate]. }
  unfold train_iteration, py_mod, save. run. rewrite Hargs. run.
  rewrite decide_False by done. run. rewrite Hsum. run. rewrite Heta'. run.
  rewrite (decide_False _ _ Hperiod). run.
  assert (¬ is_Some (<["iteration":=VInt i]> args !! "name")) as Hn.
  { rewrite lookup_insert_ne by done. rewrite Hname. by intros [? ?]. }
  destruct (bool_decide (i `mod` 20 = 0 ∨ i = max_iter)); simpl;
    (case_bool_decide as Hmod; simpl;
     rewrite ?lookup_insert_eq; simpl; rewrite ?(decide_False _ _ Hn); simpl);
    (case_bool_decide as Hfin; simpl;
     rewrite ?lookup_insert_eq; simpl; rewrite ?(decide_False _ _ Hn); simpl);
    (rewrite <-?app_assoc; eexists; split; [reflexivity|]; split; [done|];
     intros begun; unfold saved_at;
     apply Z.mod_divide in Hmod || rewrite Z.mod_divide in Hmod by done;
     rewrite ?(decide_True _ _ Hmod), ?(decide_False _ _ Hmod),
       ?(decide_True _ _ Hfin), ?(decide_False _ _ Hfin); done).
Qed.

Lemma train_loop_written (self : SceneGraphGeneration) (max_iter : Z)
    (batches : list train_batch) :
  ∀ (i : Z) (w : world) (args : gmap string pyval),
    heap w !! arguments self = Some args →
    args !! "name" = None →
    SOLVER_CHECKPOINT_PERIOD (cfg self) ≠ 0 →
    Forall loss_dict_ok batches →
    etas_ok max_iter i batches →
    ∃ evs,
      trace (train_loop self max_iter i batches w).2 = trace w ++ evs ∧
      ∀ begun,
        Forall (λ kc, ∃ k : nat,
                  kc.1 = S (begun + k) ∧ (k < length batches)%nat ∧
                  kc.2 ∈ saved_at (SOLVER_CHECKPOINT_PERIOD (cfg self))
                           max_iter args (i + Z.of_nat k))
          (written begun evs).
Proof.
  induction batches as [|data rest IH];
    intros i w args Hargs Hname Hperiod Hok Hetas.
  - exists []. simpl. by rewrite app_nil_r.
  - apply Forall_cons in Hok as [Hdata Hrest]. destruct Hetas as [Heta Hetas].
    destruct (train_iteration_written self max_iter i data w args
                Hargs Hname Hperiod Hdata Heta) as (evs1 & Htr1 & Hst1 & Hwr1).
    destruct (train_iteration_run self max_iter i data w args
                Hargs Hname Hperiod Hdata Heta)
      as (l & w1 & Hrun1 & _ & Hheap1 & _).
    rewrite Hrun1 in Htr1. simpl in Htr1.
    assert (heap w1 !! arguments self = Some (<["iteration" := VInt i]> args))
      as Hargs1 by (rewrite Hheap1; apply lookup_insert_eq).
    assert (<["iteration" := VInt i]> args !! "name" = None) as Hname1
      by by rewrite lookup_insert_ne.
    destruct (IH (i + 1) w1 _ Hargs1 Hname1 Hperiod Hrest Hetas)
      as (evs2 & Htr2 & Hwr2).
    exists (evs1 ++ evs2). simpl train_loop. run. rewrite Hrun1.
    split; [by rewrite Htr2, Htr1, app_assoc|].
    intros begun. rewrite written_app, Hst1, Hwr1. apply Forall_app. split.
    + apply Forall_forall. intros kc [c [-> Hc]]%list_elem_of_fmap.
      exists 0%nat. simpl. split; [by rewrite Nat.add_0_r|]. split; [lia|].
      by replace (i + Z.of_nat 0) with i by lia.
    + eapply Forall_impl; [apply Hwr2|]. intros kc (k & Hk & Hlt & Hin).
      exists (S k). split; [rewrite Hk; f_equal; lia|]. split; [simpl; lia|].
      rewrite saved_at_insert in Hin.
      by replace (i + Z.of_nat (S k)) with (i + 1 + Z.of_nat k) by lia.
Qed.

(** X8: after a run of [train] over at least one batch, the iteration
    kept in [self.arguments] is that of the last iteration run, and every
    checkpoint written carries the arguments as they were at the start with
    the iteration it was written in: a checkpoint written when [k + 1]
    iterations of the run have begun has iteration [start_iter + k]. *)
Theorem train_records_iteration (self : SceneGraphGeneration) (w : world)
    (args : gmap string pyval) (start_iter : Z) :
  heap w !! arguments self = Some args →
  args !! "iteration" = Some (VInt start_iter) →
  args !! "name" = None →
  SOLVER_CHECKPOINT_PERIOD (cfg self) ≠ 0 →
  Forall loss_dict_ok (train_batches (data_loader_train self)) →
  etas_ok (Z.of_nat (train_len (data_loader_train self))) start_iter
    (train_batches (data_loader_train self)) →
  train_batches (data_loader_train self) ≠ [] →
  let n := length (train_batches (data_loader_train self)) in
  ∃ new w',
    train self w = (Return (), w') ∧
    heap w' !! arguments self =
      Some (<["iteration" := VInt (start_iter + Z.of_nat n - 1)]> args) ∧
    trace w' = trace w ++ new ∧
    (written 0 new).*2 = checkpoints new ∧
    Forall (λ kc, ∃ k : nat,
              kc.1 = S k ∧ (k < n)%nat ∧
              kc.2.2 = <["iteration" := VInt (start_iter + Z.of_nat k)]> args)
      (written 0 new).
Proof.
  intros Hargs Hiter Hname Hperiod Hok Hetas Hne n.
  set (max_iter := Z.of_nat (train_len (data_loader_train self))) in *.
  set (w0 := World (heap w) (paths w)
               ((trace w ++ [ELog INFO trainer "Start training"]) ++
                [EModelMode true])).
  assert (train self w =
          train_loop self max_iter start_iter
            (train_batches (data_loader_train self)) w0) as Heq.
  { unfold train. run. rewrite Hargs. run. rewrite Hiter. by run. }
  destruct (train_loop_last_iteration self max_iter _ start_iter w0 args
              Hargs Hname Hperiod Hok Hetas Hne) as (w' & Hrun & Hheap).
  destruct (train_loop_written self max_iter _ start_iter w0 args
              Hargs Hname Hperiod Hok Hetas) as (evs & Htrace & Hwritten).
  rewrite Hrun in Htrace. simpl in Htrace.
  exists ([ELog INFO trainer "Start training"; EModelMode true] ++ evs), w'.
  split; [by rewrite Heq|]. split; [exact Hheap|]. split.
  { rewrite Htrace. unfold w0. simpl. by rewrite <-!app_assoc. }
  split; [apply written_checkpoints|].
  simpl. eapply Forall_impl; [apply (Hwritten 0%nat)|].
  intros [k' [name kw]] (k & Hk & Hlt & Hin). simpl in *.
  exists k. split; [done|]. split; [done|].
  unfold saved_at in Hin.
  apply elem_of_app in Hin as [Hin|Hin];
    destruct (decide _); try (by apply elem_of_nil in Hin);
    apply list_elem_of_singleton in Hin; by simplify_eq.
Qed.

(** ** Building, then training *)

Lemma init_run (c : config) (args : loc) (b : built) (w : world)
    (d : gmap string pyval) :
  heap w !! args = Some d →
  ∃ self w',
    build_model c args b w = (Return self, w') ∧
    cfg self = c ∧
    data_loader_train self = built_train b ∧
    data_loader_test self = built_test b ∧
    arguments self ≠ args ∧
    heap w' !! args = Some d ∧
    heap w' !! arguments self = Some (extra_checkpoint_data b ∪ d) ∧
    paths w' = paths w ∧ trace w' = trace w.
Proof.
  intros Hargs. unfold build_model, __init__. run. rewrite Hargs. run.
  rewrite lookup_insert_eq. run.
  set (copy := fresh (dom (heap w))).
  assert (copy ≠ args) as Hfresh.
  { intros Heq. apply (is_fresh (dom (heap w))). fold copy. rewrite Heq.
    apply elem_of_dom. eauto. }
  eexists _, _. split; [reflexivity|]. simpl. rewrite insert_insert_eq.
  repeat (split; [done|]).
  split; [by rewrite lookup_insert_ne|].
  split; [by rewrite lookup_insert_eq|]. done.
Qed.

(** X9: a driver built by [build_model] and then trained to the end
    starts at the iteration of the extra checkpoint data when they hold one
    (they take precedence over the caller's arguments), at the caller's
    otherwise; and the caller's dictionary is still untouched after the
    training, which counts its iterations in the copy. *)
Theorem build_model_then_train (c : config) (args : loc) (b : built)
    (w : world) (d : gmap string pyval) (start_iter : Z) :
  heap w !! args = Some d →
  (extra_checkpoint_data b ∪ d) !! "iteration" = Some (VInt start_iter) →
  (extra_checkpoint_data b ∪ d) !! "name" = None →
  SOLVER_CHECKPOINT_PERIOD c ≠ 0 →
  Forall loss_dict_ok (train_batches (built_train b)) →
  etas_ok (Z.of_nat (train_len (built_train b))) start_iter
    (train_batches (built_train b)) →
  ∃ self w1 w2,
    build_model c args b w = (Return self, w1) ∧
    train self w1 = (Return (), w2) ∧
    heap w2 !! args = Some d ∧
    checkpoints (trace w2) =
      checkpoints (trace w) ++
      flat_map (saved_at (SOLVER_CHECKPOINT_PERIOD c)
                  (Z.of_nat (train_len (built_train b)))
                  (extra_checkpoint_data b ∪ d))
        (seqZ start_iter (Z.of_nat (length (train_batches (built_train b))))).
Proof.
  intros Hargs Hiter Hname Hperiod Hok Hetas.
  destruct (init_run c args b w d Hargs)
    as (self & w1 & Hbuild & Hcfg & Htrain & _ & Hfresh & Hkept & Hcopy
        & _ & Htrace).
  rewrite <-Hcfg in Hperiod. rewrite <-Htrain in Hok, Hetas.
  destruct (train_run self w1 _ start_iter Hcopy Hiter Hname Hperiod Hok
              Hetas)
    as (ls & w2 & Hrun & _ & _ & Hheap & Hck & _ & _).
  exists self, w1, w2. split; [done|]. split; [done|]. split.
  - rewrite Hheap by done. exact Hkept.
  - rewrite Hck, Htrace, Hcfg, Htrain. done.
Qed.

(** ** File names *)

Lemma pretty_N_char_digit (d : N) :
  (0 < d < 10)%N →
  String (pretty_N_char d) "" ≠ "0"%string ∧
  String (pretty_N_char d) "" ≠ "-"%string.
Proof.
  intros Hd.
  assert (d = 1 ∨ d = 2 ∨ d = 3 ∨ d = 4 ∨ d = 5 ∨ d = 6
          ∨ d = 7 ∨ d = 8 ∨ d = 9)%N as Hcases by lia.
  repeat (destruct Hcases as [->|Hcases]; [by split|]). by subst d.
Qed.

Lemma pretty_N_go_head (x : N) :
  ∀ s, (0 < x)%N →
       ∃ c rest, pretty_N_go x s = String c rest ∧
                 String c "" ≠ "0"%string ∧ String c "" ≠ "-"%string.
Proof.
  induction (N.lt_wf_0 x) as [x _ IH]; intros s Hx.
  rewrite pretty_N_go_step by done.
  destruct (decide (x `div` 10 = 0)%N) as [Hsmall|Hbig].
  - rewrite Hsmall, pretty_N_go_0. eexists _, _. split; [done|].
    apply pretty_N_char_digit.
    apply N.div_small_iff in Hsmall; [|done].
    rewrite N.mod_small by done. lia.
  - apply IH; [apply N.div_lt; lia|by apply N.neq_0_lt_0].
Qed.

Lemma canonical_pretty (x : N) : canonical (pretty x).
Proof.
  unfold pretty, pretty_N. destruct (decide (x = 0)%N); [by left|].
  right. apply pretty_N_go_head. lia.
Qed.

Lemma zeros_canonical_inj (a : nat) :
  ∀ (b : nat) (s t : string),
    canonical s → canonical t → zeros a +:+ s = zeros b +:+ t → s = t.
Proof.
  assert (∀ (n : nat) (s t : string),
            canonical s → canonical t →
            s = "0" +:+ (zeros n +:+ t) → False) as Hcontra.
  { intros n s t [->|(c & rest & -> & Hc & _)] Ht Heq.
    - apply (f_equal String.length) in Heq.
      rewrite !length_append in Heq. simpl in Heq.
      destruct Ht as [->|(? & ? & -> & _)]; simpl in Heq; lia.
    - simpl in Heq. injection Heq as -> _. done. }
  induction a as [|a IH]; intros [|b] s t Hs Ht Heq; simpl in Heq.
  - done.
  - exfalso. by eapply (Hcontra b s t).
  - exfalso. by eapply (Hcontra a t s).
  - injection Heq as Heq. by eapply IH.
Qed.

Lemma zfill_canonical_head (width : nat) (s : string) :
  canonical s →
  ∃ c rest, zfill width s = String c rest ∧ String c "" ≠ "-"%string.
Proof.
  intros Hs. unfold zfill. destruct (width - String.length s)%nat; simpl.
  - destruct Hs as [->|(c & rest & -> & _ & Hc)]; eauto.
  - eauto.
Qed.

Lemma pretty_Z_nonneg (i : Z) : 0 ≤ i → pretty i = pretty (Z.to_N i).
Proof. destruct i; [done|done|lia]. Qed.

Global Instance format_07d_inj : Inj (=) (=) format_07d.
Proof.
  assert (∀ i p, 0 ≤ i → format_07d i ≠ format_07d (Z.neg p)) as Hsign.
  { intros i p Hi Heq.
    assert (format_07d i = zfill 7 (pretty (Z.to_N i))) as Hfmt
      by (destruct i; [done|done|lia]).
    rewrite Hfmt in Heq.
    destruct (zfill_canonical_head 7 _ (canonical_pretty (Z.to_N i)))
      as (c & rest & Hhead & Hc).
    rewrite Hhead in Heq. simpl in Heq. injection Heq as -> _. done. }
  assert (∀ i j, 0 ≤ i → 0 ≤ j → format_07d i = format_07d j → i = j) as Hpos.
  { intros i j Hi Hj Heq.
    assert (∀ k, 0 ≤ k → format_07d k = zfill 7 (pretty (Z.to_N k))) as Hfmt
      by (intros [|?|?] ?; [done|done|lia]).
    rewrite !Hfmt in Heq by done. unfold zfill in Heq.
    apply zeros_canonical_inj in Heq; [|apply canonical_pretty..].
    apply (inj pretty) in Heq. lia. }
  intros i j Heq.
  destruct i as [|p|p], j as [|q|q];
    try (by apply Hpos);
    try (by (exfalso; eapply Hsign; [|exact Heq]; lia));
    try (by (exfalso; eapply Hsign; [|symmetry; exact Heq]; lia)).
  unfold format_07d in Heq. injection Heq as Heq. unfold zfill in Heq.
  apply zeros_canonical_inj in Heq; [|apply canonical_pretty..].
  apply (inj pretty) in Heq. by simplify_eq.
Qed.

Global Instance checkpoint_name_inj : Inj (=) (=) checkpoint_name.
Proof.
  intros i j Heq. unfold checkpoint_name in Heq.
  apply (inj (String.append "checkpoint_")) in Heq. by apply (inj _) in Heq.
Qed.

Lemma append_inj_r (u : string) : ∀ s t, s +:+ u = t +:+ u → s = t.
Proof.
  induction s as [|c s IH]; intros [|c' t] Heq.
  - done.
  - apply (f_equal String.length) in Heq.
    rewrite !length_append in Heq. simpl in Heq. lia.
  - apply (f_equal String.length) in Heq.
    rewrite !length_append in Heq. simpl in Heq. lia.
  - simpl in Heq. injection Heq as -> Heq. f_equal. by apply IH.
Qed.

Global Instance detection_file_inj : Inj (=) (=) detection_file.
Proof.
  intros i j Heq. unfold detection_file in Heq.
  apply (inj (String.append "visualize")) in Heq.
  apply (inj (String.append "/")) in Heq.
  apply (inj (String.append "detection_")) in Heq.
  apply append_inj_r in Heq. by apply (inj pretty) in Heq.
Qed.

Lemma elem_of_saved_names (period max_iter : Z) (args : gmap string pyval)
    (i : Z) (name : string) :
  name ∈ (saved_at period max_iter args i).*1 →
  name = checkpoint_name i ∨
  (name = "checkpoint_final"%string ∧ i + 1 = max_iter).
Proof.
  unfold saved_at. rewrite fmap_app, elem_of_app.
  intros [Hin|Hin]; destruct (decide _); simpl in Hin;
    try (by apply elem_of_nil in Hin);
    apply list_elem_of_singleton in Hin; auto.
Qed.

Lemma NoDup_saved_names (period max_iter : Z) (args : gmap string pyval)
    (iterations : list Z) :
  NoDup iterations →
  NoDup (flat_map (saved_at period max_iter args) iterations).*1.
Proof.
  induction 1 as [|i rest Hi Hnd IH]; [constructor|].
  simpl flat_map. rewrite fmap_app. apply NoDup_app. split; [|split; [|done]].
  - unfold saved_at.
    destruct (decide _), (decide _); simpl; repeat constructor;
      try apply not_elem_of_nil.
    rewrite list_elem_of_singleton. apply checkpoint_name_not_final.
  - intros name Hname Hrest.
    apply list_elem_of_fmap in Hrest as ([name' kw] & -> & Hin).
    apply list_elem_of_In, in_flat_map in Hin as (j & Hj & Hin).
    apply list_elem_of_In in Hj, Hin.
    assert (name' ∈ (saved_at period max_iter args j).*1) as Hname'
      by (apply list_elem_of_fmap; by exists (name', kw)).
    simpl in Hname.
    apply elem_of_saved_names in Hname as [Hi1|[Hi1 Hi2]];
      apply elem_of_saved_names in Hname' as [Hj1|[Hj1 Hj2]].
    + rewrite Hi1 in Hj1. apply (inj _) in Hj1. by subst j.
    + rewrite Hi1 in Hj1. by apply checkpoint_name_not_final in Hj1.
    + rewrite Hi1 in Hj1. symmetry in Hj1.
      by apply checkpoint_name_not_final in Hj1.
    + assert (i = j) as -> by lia. done.
Qed.

(** X10: the checkpoints written by one completed run of [train] all have
    different names: no periodic checkpoint is overwritten by a later
    one, nor by the final one. *)
Theorem train_checkpoint_names_distinct (self : SceneGraphGeneration)
    (w : world) (args : gmap string pyval) (start_iter : Z) :
  heap w !! arguments self = Some args →
  args !! "iteration" = Some (VInt start_iter) →
  args !! "name" = None →
  SOLVER_CHECKPOINT_PERIOD (cfg self) ≠ 0 →
  Forall loss_dict_ok (train_batches (data_loader_train self)) →
  etas_ok (Z.of_nat (train_len (data_loader_train self))) start_iter
    (train_batches (data_loader_train self)) →
  ∃ saved w',
    train self w = (Return (), w') ∧
    checkpoints (trace w') = checkpoints (trace w) ++ saved ∧
    NoDup saved.*1.
Proof.
  intros Hargs Hiter Hname Hperiod Hok Hetas.
  destruct (train_run self w args start_iter Hargs Hiter Hname Hperiod Hok
              Hetas)
    as (ls & w' & Hrun & _ & _ & _ & Hck & _ & _).
  eexists _, w'. split; [done|]. split; [exact Hck|].
  apply NoDup_saved_names, NoDup_seqZ.
Qed.



(** ** What [test] gathers *)






(** ** Directories *)





(** ** Progress reports of [train] *)

Lemma logs_app (tr1 tr2 : list event) :
  logs (tr1 ++ tr2) = logs tr1 ++ logs tr2.
Proof. apply omap_app. Qed.

Lemma train_iteration_logs (self : SceneGraphGeneration) (max_iter i : Z)
    (data : train_batch) (w : world) (args : gmap string pyval) :
  heap w !! arguments self = Some args →
  args !! "name" = None →
  SOLVER_CHECKPOINT_PERIOD (cfg self) ≠ 0 →
  loss_dict_ok data →
  eta_ok max_iter i data →
  logs (trace (train_iteration self max_iter i data w).2) =
  logs (trace w) ++ logged_at max_iter i.
Proof.
  intros Hargs Hname Hperiod [Hne Hloss] Heta. unfold eta_ok in Heta.
  destruct (eta_string (global_avg data) max_iter i) as [eta|] eqn:Heta';
    [clear Heta|done].
  destruct (py_sum (loss_dict data).*2) as [l|] eqn:Hsum.
  2:{ destruct (loss_dict data); [done|discriminate]. }
  unfold train_iteration, py_mod, save, logged_at. run. rewrite Hargs. run.
  rewrite decide_False by done. run. rewrite Hsum. run. rewrite Heta'. run.
  rewrite (decide_False _ _ Hperiod). run.
  assert (¬ is_Some (<["iteration":=VInt i]> args !! "name")) as Hn.
  { rewrite lookup_insert_ne by done. rewrite Hname. by intros [? ?]. }
  destruct (decide (i `mod` 20 = 0 ∨ i = max_iter)) as [Hlog|Hlog];
    [rewrite bool_decide_eq_true_2 by done
    |rewrite bool_decide_eq_false_2 by done]; simpl;
    (case_bool_decide as Hmod; simpl;
     rewrite ?lookup_insert_eq; simpl; rewrite ?(decide_False _ _ Hn); simpl);
    (case_bool_decide as Hfin; simpl;
     rewrite ?lookup_insert_eq; simpl; rewrite ?(decide_False _ _ Hn); simpl);
    rewrite !logs_app; simpl; rewrite !app_nil_r; reflexivity.
Qed.

Lemma train_loop_logs (self : SceneGraphGeneration) (max_iter : Z)
    (batches : list train_batch) :
  ∀ (i : Z) (w : world) (args : gmap string pyval),
    heap w !! arguments self = Some args →
    args !! "name" = None →
    SOLVER_CHECKPOINT_PERIOD (cfg self) ≠ 0 →
    Forall loss_dict_ok batches →
    etas_ok max_iter i batches →
    logs (trace (train_loop self max_iter i batches w).2) =
    logs (trace w) ++
    flat_map (logged_at max_iter) (seqZ i (Z.of_nat (length batches))).
Proof.
  induction batches as [|data rest IH];
    intros i w args Hargs Hname Hperiod Hok Hetas.
  - simpl. by rewrite app_nil_r.
  - apply Forall_cons in Hok as [Hdata Hrest]. destruct Hetas as [Heta Hetas].
    pose proof (train_iteration_logs self max_iter i data w args
                  Hargs Hname Hperiod Hdata Heta) as Hlogs1.
    destruct (train_iteration_run self max_iter i data w args
                Hargs Hname Hperiod Hdata Heta)
      as (l & w1 & Hrun1 & _ & Hheap1 & _).
    rewrite Hrun1 in Hlogs1. simpl in Hlogs1.
    assert (heap w1 !! arguments self = Some (<["iteration" := VInt i]> args))
      as Hargs1 by (rewrite Hheap1; apply lookup_insert_eq).
    assert (<["iteration" := VInt i]> args !! "name" = None) as Hname1
      by by rewrite lookup_insert_ne.
    simpl train_loop. run. rewrite Hrun1.
    rewrite (IH (i + 1) w1 _ Hargs1 Hname1 Hperiod Hrest Hetas), Hlogs1.
    simpl length. rewrite (seqZ_cons i) by lia.
    replace (Z.succ i) with (i + 1) by lia.
    replace (Z.pred (Z.of_nat (S (length rest))))
      with (Z.of_nat (length rest)) by lia.
    simpl flat_map. by rewrite <-app_assoc.
Qed.

(** X14: a run of [train] that completes logs its start and then one
    progress line for each iteration [i] of the run with [i % 20 == 0] or
    [i == max_iter], none for the others. *)
Theorem train_progress_reports (self : SceneGraphGeneration) (w : world)
    (args : gmap string pyval) (start_iter : Z) :
  heap w !! arguments self = Some args →
  args !! "iteration" = Some (VInt start_iter) →
  args !! "name" = None →
  SOLVER_CHECKPOINT_PERIOD (cfg self) ≠ 0 →
  Forall loss_dict_ok (train_batches (data_loader_train self)) →
  etas_ok (Z.of_nat (train_len (data_loader_train self))) start_iter
    (train_batches (data_loader_train self)) →
  let max_iter := Z.of_nat (train_len (data_loader_train self)) in
  (train self w).1 = Return () ∧
  logs (trace (train self w).2) =
    logs (trace w) ++
    "Start training"%string ::
    ((λ _, progress_line) <$>
       filter (λ i, i `mod` 20 = 0 ∨ i = max_iter)
         (seqZ start_iter
            (Z.of_nat (length (train_batches (data_loader_train self)))))).
Proof.
  intros Hargs Hiter Hname Hperiod Hok Hetas max_iter.
  destruct (train_run self w args start_iter Hargs Hiter Hname Hperiod Hok
              Hetas)
    as (ls & w' & Hrun & _). rewrite Hrun. split; [done|]. simpl.
  set (w0 := World (heap w) (paths w)
               ((trace w ++ [ELog INFO trainer "Start training"]) ++
                [EModelMode true])).
  pose proof (train_loop_logs self max_iter _ start_iter w0 args
                Hargs Hname Hperiod Hok Hetas) as Hlogs.
  assert (train self w =
          train_loop self max_iter start_iter
            (train_batches (data_loader_train self)) w0) as Heq.
  { unfold train. run. rewrite Hargs. run. rewrite Hiter. by run. }
  rewrite Heq in Hrun. rewrite Hrun in Hlogs. simpl in Hlogs.
  rewrite Hlogs. unfold w0. simpl. rewrite !logs_app. simpl.
  rewrite app_nil_r, <-app_assoc. simpl. do 2 f_equal.
  clear Hlogs Hrun Heq.
  induction (seqZ _ _) as [|i l IHl]; [done|].
  simpl. rewrite filter_cons, IHl. unfold logged_at.
  by destruct (decide _).
Qed.

(** X15: when the scene parser returns a loss dictionary with a key
    [loss], the first iteration of [train] raises TypeError at the update
    of the meters (the keyword is given twice): the scheduler has stepped
    and the iteration is recorded, but nothing is backpropagated and no
    checkpoint is written. *)
Theorem train_loss_key_raises (self : SceneGraphGeneration) (w : world)
    (args : gmap string pyval) (start_iter : Z)
    (data : train_batch) (rest : list train_batch) :
  heap w !! arguments self = Some args →
  args !! "iteration" = Some (VInt start_iter) →
  train_batches (data_loader_train self) = data :: rest →
  "loss"%string ∈ (loss_dict data).*1 →
  ∃ w',
    train self w = (Raise TypeError, w') ∧
    last (trace w') = Some ESchedulerStep ∧
    backwards (trace w') = backwards (trace w) ∧
    checkpoints (trace w') = checkpoints (trace w) ∧
    heap w' !! arguments self = Some (<["iteration" := VInt start_iter]> args).
Proof.
  intros Hargs Hiter Hbatches Hloss.
  unfold train. rewrite Hbatches. simpl train_loop.
  unfold train_iteration. run. rewrite Hargs. run.
  rewrite Hiter. run. rewrite Hargs. run.
  rewrite decide_True by done. run.
  eexists. split; [reflexivity|]. simpl.
  split; [apply last_snoc|].
  unfold backwards, checkpoints. rewrite !omap_app. simpl.
  rewrite !app_nil_r, lookup_insert_eq. done.
Qed.

(** ** The estimate of the time left *)

Lemma eta_string_raises (avg : float) (max_iter i : Z) (e : exn) :
  eta_string avg max_iter i = Raise e → e = OverflowError ∨ e = ValueError.
Proof.
  unfold eta_string, eta_seconds, float_mul_int, float_of_int, and_then,
    int_of_float, timedelta_of_seconds.
  intros Heta. repeat case_match; simplify_eq; auto.
Qed.

(** X17: when the estimate of the time left cannot be formed in the first
    iteration (the product, its integer part or the duration is out of
    range), [train] raises the error of that computation, OverflowError or
    ValueError, once the optimizer has stepped and the time of the
    iteration is recorded: the loss has been backpropagated, but no progress
    line is logged and no checkpoint is written. *)
Theorem train_eta_raises (self : SceneGraphGeneration) (w : world)
    (args : gmap string pyval) (start_iter : Z)
    (data : train_batch) (rest : list train_batch) (e : exn) :
  heap w !! arguments self = Some args →
  args !! "iteration" = Some (VInt start_iter) →
  train_batches (data_loader_train self) = data :: rest →
  loss_dict_ok data →
  eta_string (global_avg data)
    (Z.of_nat (train_len (data_loader_train self))) start_iter = Raise e →
  (e = OverflowError ∨ e = ValueError) ∧
  ∃ w',
    train self w = (Raise e, w') ∧
    last (trace w') = Some EMetersTime ∧
    length (backwards (trace w')) = S (length (backwards (trace w))) ∧
    logs (trace w') = logs (trace w) ++ ["Start training"%string] ∧
    checkpoints (trace w') = checkpoints (trace w) ∧
    heap w' !! arguments self = Some (<["iteration" := VInt start_iter]> args).
Proof.
  intros Hargs Hiter Hbatches [Hne Hloss] Heta.
  split; [by eapply eta_string_raises|].
  destruct (py_sum (loss_dict data).*2) as [l|] eqn:Hsum.
  2:{ destruct (loss_dict data); [done|discriminate]. }
  unfold train. rewrite Hbatches. simpl train_loop.
  unfold train_iteration. run. rewrite Hargs. run.
  rewrite Hiter. run. rewrite Hargs. run.
  rewrite decide_False by done. run. rewrite Hsum. run. rewrite Heta. run.
  eexists. split; [reflexivity|]. simpl.
  split; [apply last_snoc|].
  unfold backwards, checkpoints, logs. rewrite !omap_app. simpl.
  rewrite !app_nil_r, length_app, lookup_insert_eq. simpl.
  repeat split; try done. lia.
Qed.

(** X18: an iteration of [train] that gets past the update of the meters
    (no key [loss] among the losses, at least one of them) calls [backward]
    once, on the sum of the values of the loss dictionary, and has given
    that sum to the meters, whatever happens later in the iteration: an
    estimate of the time left out of range, a checkpoint period of 0 or a
    refused checkpoint change nothing to it. *)
Theorem train_iteration_backward_whatever_follows
    (self : SceneGraphGeneration) (max_iter i : Z) (data : train_batch)
    (w : world) (args : gmap string pyval) (v : Tensor) (vs : list Tensor) :
  heap w !! arguments self = Some args →
  "loss"%string ∉ (loss_dict data).*1 →
  (loss_dict data).*2 = v :: vs →
  let w' := (train_iteration self max_iter i data w).2 in
  backwards (trace w') = backwards (trace w) ++ [foldl tensor_add v vs] ∧
  meter_losses (trace w') =
    meter_losses (trace w) ++ [Some (foldl tensor_add v vs)].
Proof.
  intros Hargs Hloss Hvals.
  assert (py_sum (loss_dict data).*2 = Some (foldl tensor_add v vs)) as Hsum
    by (by rewrite Hvals).
  unfold train_iteration, py_mod, save. run. rewrite Hargs. run.
  rewrite decide_False by done. run. rewrite Hsum. run.
  unfold backwards, meter_losses.
  destruct (eta_string _ _ _); run;
    [|rewrite !omap_app; simpl; by rewrite !app_nil_r].
  destruct (decide (SOLVER_CHECKPOINT_PERIOD (cfg self) = 0)); run;
    destruct (bool_decide (i `mod` 20 = 0 ∨ i = max_iter)); run;
    try (rewrite !omap_app; simpl; by rewrite !app_nil_r);
    (case_bool_decide; run; rewrite ?lookup_insert_eq; run;
     try destruct (decide (is_Some _)); run);
    try (rewrite !omap_app; simpl; by rewrite !app_nil_r);
    (case_bool_decide; run; rewrite ?lookup_insert_eq; run;
     try destruct (decide (is_Some _)); run);
    rewrite !omap_app; simpl; by rewrite !app_nil_r.
Qed.

(** X19: an iteration of [train] that raises, wherever it does, has
    written no checkpoint; one that returns has written the periodic
    checkpoint exactly when [i + 1] is a multiple of the checkpoint period,
    and then the final one exactly when [i + 1 = max_iter]. *)
Theorem train_iteration_checkpoints_by_outcome
    (self : SceneGraphGeneration) (max_iter i : Z) (data : train_batch)
    (w : world) (args : gmap string pyval) :
  heap w !! arguments self = Some args →
  let run := train_iteration self max_iter i data w in
  checkpoints (trace run.2) =
    checkpoints (trace w) ++
    match run.1 with
    | Return _ =>
        (if decide ((SOLVER_CHECKPOINT_PERIOD (cfg self) | i + 1))
         then [(checkpoint_name i, <["iteration" := VInt i]> args)] else []) ++
        (if decide (i + 1 = max_iter)
         then [("checkpoint_final"%string, <["iteration" := VInt i]> args)]
         else [])
    | Raise _ => []
    end.
Proof.
  intros Hargs.
  unfold train_iteration, py_mod, save. run. rewrite Hargs. run.
  unfold checkpoints.
  destruct (decide ("loss"%string ∈ _)); run;
    [rewrite !omap_app; simpl; by rewrite !app_nil_r|].
  destruct (py_sum _); run;
    [|rewrite !omap_app; simpl; by rewrite !app_nil_r].
  destruct (eta_string _ _ _); run;
    [|rewrite !omap_app; simpl; by rewrite !app_nil_r].
  destruct (decide (SOLVER_CHECKPOINT_PERIOD (cfg self) = 0)) as [|Hperiod];
    run.
  { destruct (bool_decide _); run; rewrite !omap_app; simpl;
      by rewrite !app_nil_r. }
  destruct (bool_decide (i `mod` 20 = 0 ∨ i = max_iter)); run;
    (case_bool_decide as Hmod; run; rewrite ?lookup_insert_eq; run;
     try destruct (decide (is_Some _)); run);
    try (rewrite !omap_app; simpl; by rewrite !app_nil_r);
    (case_bool_decide as Hfin; run; rewrite ?lookup_insert_eq; run;
     try destruct (decide (is_Some _)); run);
    try (rewrite !omap_app; simpl; by rewrite !app_nil_r);
    (apply Z.mod_divide in Hmod || rewrite Z.mod_divide in Hmod by done);
    rewrite ?(decide_True _ _ Hmod), ?(decide_False _ _ Hmod),
      ?(decide_True _ _ Hfin), ?(decide_False _ _ Hfin);
    rewrite ?omap_app; simpl; by rewrite ?app_nil_r, <-?app_assoc.
Qed.

End driver.

(** X6: when no image id is held by two processes, the order in which
    [all_gather] lists the dictionaries is immaterial: the accumulation
    has the same outcome and the same effects for any two orders. *)
Theorem accumulate_gather_order_irrelevant {Tensor BoxList Image : Type}
    (is_main_process : bool)
    (gather1 gather2 : gmap Z BoxList → list (gmap Z BoxList))
    (predictions_per_gpu : gmap Z BoxList)
    (w : @world Tensor BoxList Image) :
  gather1 predictions_per_gpu ≡ₚ gather2 predictions_per_gpu →
  disjoint_ids (gather1 predictions_per_gpu) →
  _accumulate_predictions_from_multiple_gpus is_main_process gather1
    predictions_per_gpu w =
  _accumulate_predictions_from_multiple_gpus is_main_process gather2
    predictions_per_gpu w.
Proof.
  intros Hperm Hdis. unfold _accumulate_predictions_from_multiple_gpus.
  by rewrite (merge_dicts_perm gather1 _ _ Hperm Hdis).
Qed.

(** * Concrete runs

    Losses are integers, detections and images are numbered. *)

Definition demo_config (period : Z) : config :=
  {| SOLVER_CHECKPOINT_PERIOD := period;
     MODEL_RETINANET_ON := false;
     MODEL_RPN_ONLY := false |}.

(** Half a second, the float 2^52 * 2^-53. *)
Definition half_second : float :=
  SpecFloat.S754_finite false 4503599627370496 (-53).

Definition demo_batch : @train_batch Z :=
  {| loss_dict := [("loss_objectness"%string, 3); ("loss_box_reg"%string, 4)];
     global_avg := half_second |}.

Definition demo_test_loader : @test_loader nat nat :=
  {| test_len := 2;
     dataset_len := 3;
     test_batches :=
       [ {| tensors := [70; 71]%nat; image_ids := [0; 1];
            output := [50; 51]%nat |};
         {| tensors := [72]%nat; image_ids := [2]; output := [52]%nat |} ] |}.

(** A driver whose training loader has [len] batches and yields them all. *)
Definition demo_self (period : Z) (len : nat) : @SceneGraphGeneration Z nat nat :=
  {| cfg := demo_config period;
     arguments := 1%positive;
     data_loader_train :=
       {| train_len := len; train_batches := replicate len demo_batch |};
     data_loader_test := demo_test_loader |}.

(** A world where [self.arguments] holds iteration [start_iter]. *)
Definition demo_world (start_iter : Z) : @world Z nat nat :=
  World {[1%positive := {["iteration"%string := VInt start_iter]}]} ∅ [].

(** Another process contributes image 2 (and its own view of image 1). *)
Definition demo_gather (mine : gmap Z nat) : list (gmap Z nat) :=
  [mine; {[1 := 61%nat; 2 := 62%nat]}].

Definition demo_evaluate (preds : option (list nat)) (folder : string)
    (box_only : bool) : nat :=
  length (default [] preds).

(** C2: resuming at iteration 1 with a loader of length 3 that yields its
    3 batches, [train] runs the iterations 1, 2 and 3 and writes
    [checkpoint_final] in the second of them, not in the last; resuming at
    iteration 3 it runs three iterations and writes no final checkpoint. *)
Theorem resumed_train_misplaces_final_checkpoint :
  (let run := train Z.add (demo_self 2500 3) (demo_world 1) in
   run.1 = Return () ∧
   progress (trace run.2) = ["step"; "step"; "checkpoint_final"; "step"]%string ∧
   heap run.2 !! 1%positive = Some {["iteration"%string := VInt 3]}) ∧
  (let run := train Z.add (demo_self 2500 3) (demo_world 3) in
   run.1 = Return () ∧
   progress (trace run.2) = ["step"; "step"; "step"]%string ∧
   heap run.2 !! 1%positive = Some {["iteration"%string := VInt 5]}).
Proof. cbv zeta. repeat apply conj; vm_compute; reflexivity. Qed.

(** A run from scratch ends with the final checkpoint. *)
Example fresh_train_ends_with_final_checkpoint :
  let run := train Z.add (demo_self 2 3) (demo_world 0) in
  run.1 = Return () ∧
  progress (trace run.2) =
    ["step"; "step"; "checkpoint_0000001"; "step"; "checkpoint_final"]%string.
Proof. cbv zeta. repeat apply conj; vm_compute; reflexivity. Qed.

(** C1 as stated fails: a negative key escapes the test on the last key.
    On the main process
    the keys -1, 0 and 2 are gathered: the merged dictionary is not empty,
    its keys are not the range 0 .. 2, and yet the accumulation logs no
    warning (the gather is its only event), since there are 3 keys and the
    last one is 2. *)
Lemma accumulate_negative_key_not_warned :
  let mine : gmap Z nat := {[-1 := 50%nat; 0 := 51%nat; 2 := 52%nat]} in
  let gather := λ mine : gmap Z nat, [mine] in
  let merged := merge_dicts (gather mine) in
  let run :=
    _accumulate_predictions_from_multiple_gpus (Tensor:=Z) (Image:=nat)
      true gather mine (demo_world 0) in
  merged ≠ ∅ ∧
  dom merged ≠ list_to_set (seqZ 0 (Z.of_nat (size merged))) ∧
  run.1 = Return (Some [50; 51; 52]%nat) ∧
  trace run.2 = [EAllGather mine] ∧
  logs (trace run.2) = [].
Proof.
  cbv zeta. split; [compute_done|]. split; [compute_done|].
  repeat apply conj; vm_compute; reflexivity.
Qed.

Lemma demo_keys_nonnegative (k : Z) :
  k ∈ dom (merge_dicts (demo_gather {[0 := 50%nat; 1 := 51%nat]})) → 0 ≤ k.
Proof.
  intros [v Hv]%elem_of_dom.
  assert (map_Forall (λ i _, 0 ≤ i)
            (merge_dicts (demo_gather {[0 := 50%nat; 1 := 51%nat]}))) as Hall
    by compute_done.
  exact (Hall k v Hv).
Qed.

Lemma accumulate_warns_iff_not_contiguous_witness :
  ∃ ps,
    (_accumulate_predictions_from_multiple_gpus true demo_gather
       {[0 := 50%nat; 1 := 51%nat]} (demo_world 0)).1 = Return (Some ps).
Proof.
  destruct (accumulate_warns_iff_not_contiguous true demo_gather
              {[0 := 50%nat; 1 := 51%nat]} (demo_world 0))
    as (ps & Hrun & _).
  - reflexivity.
  - compute_done.
  - exact demo_keys_nonnegative.
  - exists ps. exact (f_equal fst Hrun).
Defined.

Lemma accumulate_empty_raises_IndexError_witness :
  (_accumulate_predictions_from_multiple_gpus true (λ mine, [mine; ∅])
     (∅ : gmap Z nat) (demo_world 0)).1 = Raise IndexError.
Proof.
  destruct (accumulate_empty_raises_IndexError true (λ mine, [mine; ∅])
              (∅ : gmap Z nat) (demo_world 0)) as [_ Hrun].
  - reflexivity.
  - repeat constructor.
  - exact (f_equal fst Hrun).
Defined.

Lemma accumulate_keeps_latest_duplicate_witness :
  merge_dicts (demo_gather {[0 := 50%nat; 1 := 51%nat]}) !! 1 = Some 61%nat.
Proof.
  apply (accumulate_keeps_latest_duplicate true demo_gather
           {[0 := 50%nat; 1 := 51%nat]} (demo_world 0)
           [{[0 := 50%nat; 1 := 51%nat]}] []
           {[1 := 61%nat; 2 := 62%nat]} 1 61%nat).
  - reflexivity.
  - reflexivity.
  - reflexivity.
  - constructor.
Defined.

Lemma init_keeps_callers_arguments_witness :
  ∃ self w',
    __init__ (demo_config 2) 1%positive
      {| built_train := data_loader_train (demo_self 2 3);
         built_test := demo_test_loader;
         extra_checkpoint_data := {["iteration"%string := VInt 7]} |}
      (demo_world 0) = (Return self, w') ∧
    heap w' !! 1%positive = Some {["iteration"%string := VInt 0]}.
Proof.
  destruct (init_keeps_callers_arguments (demo_config 2) 1%positive
              {| built_train := data_loader_train (demo_self 2 3);
                 built_test := demo_test_loader;
                 extra_checkpoint_data := {["iteration"%string := VInt 7]} |}
              (demo_world 0) {["iteration"%string := VInt 0]})
    as (self & w' & Hrun & _ & Hkept & _).
  - reflexivity.
  - exists self, w'. split; [exact Hrun|exact Hkept].
Defined.

Lemma demo_batches_ok (len : nat) :
  Forall loss_dict_ok (replicate len demo_batch).
Proof.
  apply Forall_replicate. split; [done|]. compute_done.
Qed.

Lemma train_backpropagates_sum_of_losses_witness :
  ∃ ls w',
    train Z.add (demo_self 2 3) (demo_world 0) = (Return (), w') ∧
    backwards (trace w') = ls ∧
    Forall2 (λ data l, ∃ v vs, (loss_dict data).*2 = v :: vs ∧
                               l = foldl Z.add v vs)
      (replicate 3 demo_batch) ls.
Proof.
  destruct (train_backpropagates_sum_of_losses Z.add (demo_self 2 3)
              (demo_world 0) {["iteration"%string := VInt 0]} 0)
    as (ls & w' & Hrun & Hsums & Hbw & _).
  - reflexivity.
  - reflexivity.
  - reflexivity.
  - simpl. lia.
  - apply demo_batches_ok.
  - vm_compute. tauto.
  - exists ls, w'. split; [exact Hrun|]. split; [exact Hbw|exact Hsums].
Defined.

Lemma train_checkpoint_cadence_witness :
  ∃ saved w',
    train Z.add (demo_self 2 3) (demo_world 0) = (Return (), w') ∧
    checkpoints (trace w') = saved.
Proof.
  destruct (train_checkpoint_cadence Z.add (demo_self 2 3)
              (demo_world 0) {["iteration"%string := VInt 0]} 0)
    as (saved & w' & Hrun & Hck & _).
  - reflexivity.
  - reflexivity.
  - reflexivity.
  - simpl. lia.
  - apply demo_batches_ok.
  - vm_compute. tauto.
  - exists saved, w'. split; [exact Hrun|exact Hck].
Defined.

Lemma demo_test_batches_ok : Forall batch_ok (test_batches demo_test_loader).
Proof. repeat constructor; simpl; lia. Qed.




(** On integer losses the value of [sum] is the arithmetic sum. *)
Lemma py_sum_Z (vs : list Z) :
  vs ≠ [] → py_sum Z.add vs = Some (foldr Z.add 0 vs).
Proof.
  destruct vs as [|v vs]; [done|]. intros _. simpl. f_equal.
  revert v. induction vs as [|x vs IH]; intros v; simpl; [lia|].
  rewrite IH. lia.
Qed.

Example demo_losses :
  let run := train Z.add (demo_self 2 3) (demo_world 0) in
  backwards (trace run.2) = [7; 7; 7] ∧
  meter_losses (trace run.2) = [Some 7; Some 7; Some 7].
Proof. cbv zeta. repeat apply conj; vm_compute; reflexivity. Qed.

(** Visualisation is not reserved to the main process: asked to
    visualise, any process writes its JPEG files. *)
Example worker_process_still_writes_jpegs :
  let run := test false demo_gather demo_evaluate (demo_self 2 3) false true
               (demo_world 0) in
  run.1 = Return None ∧
  (jpeg_writes (trace run.2)).*1.*1 =
    ["visualize/detection_0.jpg"; "visualize/detection_1.jpg";
     "visualize/detection_2.jpg"]%string.
Proof. cbv zeta. repeat apply conj; vm_compute; reflexivity. Qed.

(** * Concrete runs for the further properties *)

(** A driver with nothing to test. *)
Definition demo_empty_self : @SceneGraphGeneration Z nat nat :=
  {| cfg := demo_config 2;
     arguments := 1%positive;
     data_loader_train := {| train_len := 0; train_batches := [] |};
     data_loader_test :=
       {| test_len := 0; dataset_len := 0; test_batches := [] |} |}.

(** The builders' results for a run resumed at iteration 7. *)
Definition demo_built : @built Z nat nat :=
  {| built_train := data_loader_train (demo_self 2 3);
     built_test := demo_test_loader;
     extra_checkpoint_data := {["iteration"%string := VInt 7]} |}.

Lemma accumulate_indexed_by_image_id_witness :
  ∃ ps,
    (_accumulate_predictions_from_multiple_gpus true demo_gather
       {[0 := 50%nat; 1 := 51%nat]} (demo_world 0)).1 = Return (Some ps) ∧
    ps !! 1%nat = Some 61%nat.
Proof.
  destruct (accumulate_indexed_by_image_id true demo_gather
              {[0 := 50%nat; 1 := 51%nat]} (demo_world 0))
    as (ps & Hrun & Hps).
  - reflexivity.
  - compute_done.
  - compute_done.
  - exists ps. split; [exact Hrun|]. exact (Hps 1 ltac:(lia)).
Defined.

Lemma test_empty_dataset_raises_witness :
  (test true demo_gather demo_evaluate demo_empty_self true true
     (demo_world 0)).1 = Raise ZeroDivisionError.
Proof.
  apply (test_empty_dataset_raises true demo_gather demo_evaluate
           demo_empty_self true true (demo_world 0)).
  - reflexivity.
  - intros _. constructor.
Defined.

Lemma test_nothing_gathered_raises_witness :
  (test true (λ _, []) demo_evaluate (demo_self 2 3) true true
     (demo_world 0)).1 = Raise IndexError.
Proof.
  apply (test_nothing_gathered_raises true (λ _, []) demo_evaluate
           (demo_self 2 3) true true (demo_world 0)).
  - reflexivity.
  - simpl. lia.
  - intros _. exact demo_test_batches_ok.
  - reflexivity.
Defined.


Lemma demo_disjoint :
  disjoint_ids [({[0 := 50%nat]} : gmap Z nat); {[1 := 61%nat]}].
Proof.
  intros k. rewrite !filter_cons, filter_nil.
  destruct (decide (is_Some (({[0 := 50%nat]} : gmap Z nat) !! k)))
    as [[v Hv]|]; destruct (decide (is_Some (({[1 := 61%nat]} : gmap Z nat) !! k)))
    as [[v' Hv']|]; simpl; try lia.
  apply lookup_singleton_Some in Hv as [<- _].
  by apply lookup_singleton_Some in Hv' as [? _].
Qed.

Lemma accumulate_gather_order_irrelevant_witness :
  _accumulate_predictions_from_multiple_gpus true
    (λ mine, [mine; {[1 := 61%nat]}]) {[0 := 50%nat]} (demo_world 0) =
  _accumulate_predictions_from_multiple_gpus true
    (λ mine, [{[1 := 61%nat]}; mine]) {[0 := 50%nat]} (demo_world 0).
Proof.
  apply (accumulate_gather_order_irrelevant true
           (λ mine, [mine; {[1 := 61%nat]}])
           (λ mine, [{[1 := 61%nat]}; mine]) {[0 := 50%nat]} (demo_world 0)).
  - apply perm_swap.
  - exact demo_disjoint.
Defined.

Lemma demo_batch_ok : loss_dict_ok demo_batch.
Proof. split; [done|]. compute_done. Qed.

Lemma train_zero_period_raises_witness :
  ∃ w', train Z.add (demo_self 0 3) (demo_world 0) =
          (Raise ZeroDivisionError, w') ∧
        backwards (trace w') = [7].
Proof.
  destruct (train_zero_period_raises Z.add (demo_self 0 3) (demo_world 0)
              {["iteration"%string := VInt 0]} 0 demo_batch
              (replicate 2 demo_batch))
    as (v & vs & w' & Hvals & Hrun & Hbw & _).
  - reflexivity.
  - reflexivity.
  - reflexivity.
  - reflexivity.
  - exact demo_batch_ok.
  - vm_compute. exact I.
  - exists w'. split; [exact Hrun|]. rewrite Hbw.
    injection Hvals as <- <-. reflexivity.
Defined.

Lemma train_records_iteration_witness :
  ∃ w', train Z.add (demo_self 2 3) (demo_world 0) = (Return (), w') ∧
        heap w' !! 1%positive = Some {["iteration"%string := VInt 2]}.
Proof.
  destruct (train_records_iteration Z.add (demo_self 2 3) (demo_world 0)
              {["iteration"%string := VInt 0]} 0)
    as (new & w' & Hrun & Hheap & _).
  - reflexivity.
  - reflexivity.
  - reflexivity.
  - simpl. lia.
  - apply demo_batches_ok.
  - vm_compute. tauto.
  - discriminate.
  - exists w'. split; [exact Hrun|]. exact Hheap.
Defined.

Lemma build_model_then_train_witness :
  ∃ self w1 w2,
    build_model (demo_config 2) 1%positive demo_built (demo_world 0) =
      (Return self, w1) ∧
    train Z.add self w1 = (Return (), w2) ∧
    heap w2 !! 1%positive = Some {["iteration"%string := VInt 0]}.
Proof.
  destruct (build_model_then_train Z.add (demo_config 2) 1%positive demo_built
              (demo_world 0) {["iteration"%string := VInt 0]} 7)
    as (self & w1 & w2 & Hbuild & Hrun & Hkept & _).
  - reflexivity.
  - reflexivity.
  - reflexivity.
  - simpl. lia.
  - apply demo_batches_ok.
  - vm_compute. tauto.
  - exists self, w1, w2. split; [exact Hbuild|]. split; [exact Hrun|exact Hkept].
Defined.

Lemma train_checkpoint_names_distinct_witness :
  ∃ (saved : list (string * gmap string pyval)) w',
    train Z.add (demo_self 2 3) (demo_world 0) = (Return (), w') ∧
    NoDup saved.*1.
Proof.
  destruct (train_checkpoint_names_distinct Z.add (demo_self 2 3)
              (demo_world 0) {["iteration"%string := VInt 0]} 0)
    as (saved & w' & Hrun & _ & Hnd).
  - reflexivity.
  - reflexivity.
  - reflexivity.
  - simpl. lia.
  - apply demo_batches_ok.
  - vm_compute. tauto.
  - exists saved, w'. split; [exact Hrun|exact Hnd].
Defined.




Lemma train_progress_reports_witness :
  logs (trace (train Z.add (demo_self 2 3) (demo_world 0)).2) =
  ["Start training"%string; progress_line].
Proof.
  destruct (train_progress_reports Z.add (demo_self 2 3) (demo_world 0)
              {["iteration"%string := VInt 0]} 0) as [_ Hlogs].
  - reflexivity.
  - reflexivity.
  - reflexivity.
  - simpl. lia.
  - apply demo_batches_ok.
  - vm_compute. tauto.
  - rewrite Hlogs. reflexivity.
Defined.

Lemma train_final_checkpoint_witness :
  ∃ (saved : list (string * gmap string pyval)) w',
    train Z.add (demo_self 2 3) (demo_world 0) = (Return (), w') ∧
    filter (λ c, c.1 = "checkpoint_final"%string) saved =
      [("checkpoint_final"%string, {["iteration"%string := VInt 2]})].
Proof.
  destruct (train_final_checkpoint Z.add (demo_self 2 3) (demo_world 0)
              {["iteration"%string := VInt 0]} 0)
    as (saved & w' & Hrun & _ & Hfinal).
  - reflexivity.
  - reflexivity.
  - reflexivity.
  - simpl. lia.
  - apply demo_batches_ok.
  - vm_compute. tauto.
  - exists saved, w'. split; [exact Hrun|]. rewrite Hfinal. reflexivity.
Defined.

Lemma train_loss_key_raises_witness :
  ∃ w',
    train Z.add
      {| cfg := demo_config 2;
         arguments := 1%positive;
         data_loader_train :=
           {| train_len := 1;
              train_batches := [{| loss_dict := [("loss"%string, 3)];
                           global_avg := half_second |}] |};
         data_loader_test := demo_test_loader |}
      (demo_world 0) = (Raise TypeError, w') ∧
    backwards (trace w') = [].
Proof.
  destruct (train_loss_key_raises Z.add
              {| cfg := demo_config 2;
                 arguments := 1%positive;
                 data_loader_train :=
                   {| train_len := 1;
                      train_batches :=
                        [{| loss_dict := [("loss"%string, 3)];
                           global_avg := half_second |}] |};
                 data_loader_test := demo_test_loader |}
              (demo_world 0) {["iteration"%string := VInt 0]} 0
              {| loss_dict := [("loss"%string, 3)];
                           global_avg := half_second |} [])
    as (w' & Hrun & _ & Hbw & _).
  - reflexivity.
  - reflexivity.
  - reflexivity.
  - compute_done.
  - exists w'. split; [exact Hrun|exact Hbw].
Defined.

(** The estimate of the time left at half a second per iteration: a second
    for three iterations to go (1.5 truncated), a day back for two
    iterations past the length of the loader, and no duration at all, but
    an OverflowError, when the distance to the length of the loader makes
    more than 999999999 days or does not fit in a float; a NaN average
    gives a ValueError. *)
Example eta_string_values :
  eta_string half_second 3 0 = Return {| days := 0; seconds := 1 |} ∧
  eta_string half_second 3 5 = Return {| days := -1; seconds := 86399 |} ∧
  eta_string half_second 3 200000000000000 = Raise OverflowError ∧
  eta_string half_second 3 (10 ^ 30 - 1) = Raise OverflowError ∧
  eta_string half_second (10 ^ 400) 0 = Raise OverflowError ∧
  eta_string SpecFloat.S754_nan 3 0 = Raise ValueError.
Proof. repeat apply conj; vm_compute; reflexivity. Qed.

(** The estimate comes before the test of the checkpoint period: resumed
    far past the length of the loader, [train] raises OverflowError also
    with a period of 0. *)
Example eta_raises_before_zero_period :
  let run := train Z.add (demo_self 0 3) (demo_world 200000000000000) in
  run.1 = Raise OverflowError ∧
  progress (trace run.2) = ["step"%string].
Proof. cbv zeta. repeat apply conj; vm_compute; reflexivity. Qed.

(** The checkpoints of a run from scratch, with the iteration of the run
    each is written in. *)
Example demo_written :
  let run := train Z.add (demo_self 2 3) (demo_world 0) in
  written 0 (trace run.2) =
    [(2%nat, ("checkpoint_0000001"%string, {["iteration"%string := VInt 1]}));
     (3%nat, ("checkpoint_final"%string, {["iteration"%string := VInt 2]}))].
Proof. cbv zeta. vm_compute. reflexivity. Qed.

Lemma train_eta_raises_witness :
  ∃ w',
    train Z.add (demo_self 2 3) (demo_world 200000000000000) =
      (Raise OverflowError, w') ∧
    checkpoints (trace w') = [].
Proof.
  destruct (train_eta_raises Z.add (demo_self 2 3)
              (demo_world 200000000000000)
              {["iteration"%string := VInt 200000000000000]} 200000000000000
              demo_batch (replicate 2 demo_batch) OverflowError)
    as [_ (w' & Hrun & _ & _ & _ & Hck & _)].
  - reflexivity.
  - reflexivity.
  - reflexivity.
  - exact demo_batch_ok.
  - vm_compute. reflexivity.
  - exists w'. split; [exact Hrun|exact Hck].
Defined.

Lemma train_iteration_backward_whatever_follows_witness :
  backwards
    (trace (train_iteration Z.add (demo_self 0 3) 3 200000000000000 demo_batch
              (demo_world 200000000000000)).2) = [7].
Proof.
  destruct (train_iteration_backward_whatever_follows Z.add (demo_self 0 3) 3
              200000000000000 demo_batch (demo_world 200000000000000)
              {["iteration"%string := VInt 200000000000000]} 3 [4])
    as [Hbw _].
  - reflexivity.
  - compute_done.
  - reflexivity.
  - exact Hbw.
Defined.

Lemma train_iteration_checkpoints_by_outcome_witness :
  checkpoints
    (trace (train_iteration Z.add (demo_self 2 3) 3 1 demo_batch
              (demo_world 0)).2) =
  [("checkpoint_0000001"%string, {["iteration"%string := VInt 1]})].
Proof.
  rewrite (train_iteration_checkpoints_by_outcome Z.add (demo_self 2 3) 3 1
             demo_batch (demo_world 0) {["iteration"%string := VInt 0]}).
  - vm_compute. reflexivity.
  - reflexivity.
Defined.
